(** * your-ical: event acquisition, calendar synthesis and session store

    A shallow embedding of the calendar pipeline of the your-ical server
    ([server.js], here [src/unnamed/part_000]) and of [utils.js]:
    - [generateLocationEvents], the fallback synthesizer;
    - [normalizeEvents];
    - [generateICalendar], with its day-distribution loop;
    - the relevance filter and fallback decision of
      [POST /api/generate-calendar];
    - the in-memory [global.calendarStore] with its sweep on writes and the
      delayed delete of [GET /api/download/:sessionId];
    - the [.env] loader, the headers of the download, the batch job of
      [cron.js], and the grouping and duration display of the frontend
      ([EventsDisplay], here [src/unnamed/part_003]).

    Modelling conventions.
    - Instants are [Z] milliseconds since the epoch.  Local time is taken
      with a fixed offset of zero (no daylight-saving jumps), so
      [d.setDate(d.getDate() + k)] adds [k] days and
      [d.setHours(h, m, 0, 0)] keeps the day and sets the time of day.
    - An invalid [Date] is [None] in an [option Z].
    - [Math.random()] is a stream [rnd : nat -> Q] read through a small
      state monad [Rand] that counts the calls made so far.
    - The numbers of the relevance filter (the query's coordinates read by
      [Number], the provider's [location] arrays, the distance) are IEEE
      754 doubles, Rocq's primitive [float]; the values of
      [Math.random()] are taken as rationals in [[0, 1)], which include
      every double it returns.
    - Deletion timers of the session store run at a [Tick] of the request
      sequence, at any instant from their due instant on. *)

From Stdlib Require Import QArith Qround ZArith String Ascii List Lia Lqa.
From Stdlib Require Import DecimalString DecimalNat DecimalFacts Sorted.
From Stdlib Require PrimFloat SpecFloat FloatOps FloatAxioms Uint63.
From stdpp Require Import base gmap list strings.

Open Scope Z_scope.

(* ------------------------------------------------------------------ *)
(** ** Time *)

Definition ms_per_min : Z := 60000.
Definition ms_per_hour : Z := 3600000.
Definition ms_per_day : Z := 86400000.

(** The calendar day (day number since the epoch) of an instant. *)
Definition day_of (t : Z) : Z := t / ms_per_day.

(** [d.setDate(d.getDate() + k)] on a copy of [d]. *)
Definition add_days (t k : Z) : Z := t + k * ms_per_day.

(** [d.setHours(h, m, 0, 0)]; out-of-range hours and minutes roll over
    as in JS. *)
Definition set_hours (t h m : Z) : Z :=
  day_of t * ms_per_day + h * ms_per_hour + m * ms_per_min.

(** Strict comparison of numbers, [a < b]. *)
Definition Qltb (a b : Q) : bool := negb (Qle_bool b a).

(** [new Date(x)] for a number [x]: TimeClip truncates toward zero. *)
Definition date_of_number (x : Q) : Z :=
  if Qle_bool 0 x then Qfloor x else Qceiling x.

(* ------------------------------------------------------------------ *)
(** ** [Math.random()] as a counted stream *)

Definition Rand (A : Type) : Type := (nat -> Q) -> nat -> A * nat.

#[global] Instance Rand_ret : MRet Rand := fun A x _ n => (x, n).
#[global] Instance Rand_bind : MBind Rand :=
  fun A B f m rnd n => let '(a, n') := m rnd n in f a rnd n'.

(** One call of [Math.random()]. *)
Definition random : Rand Q := fun rnd n => (rnd n, S n).

(** [Math.floor(Math.random() * k)]. *)
Definition random_below (k : Z) : Rand Z :=
  r ← random; mret (Qfloor (r * inject_Z k)).

(** Values of [Math.random()] lie in [[0, 1)]. *)
Definition random_ok (rnd : nat -> Q) : Prop :=
  forall i, (0 <= rnd i)%Q /\ (rnd i < 1)%Q.

(* ------------------------------------------------------------------ *)
(** ** Event records *)

(** A date-valued field of a JS event object: [DAbsent] is [undefined]
    or a falsy value for which [new Date] gives an invalid date ([''],
    [NaN]); [DNull] is a falsy value for which [new Date] gives the epoch
    ([null], [0], [false]); [DText] is a truthy value (a non-empty string,
    a non-zero number) that [new Date] reads as an instant ([Some t]) or
    cannot read ([None]). *)
Inductive DateField :=
  | DAbsent
  | DNull
  | DText (parsed : option Z).

(** A falsy date field. *)
Definition date_falsy (f : DateField) : bool :=
  match f with DText _ => false | _ => true end.

(** An event object as the provider returns it, or as
    [generateLocationEvents] builds it. [ev_location] is
    [event.location] when it is an array: an array of JSON numbers, each
    read as the double nearest to its decimal text. *)
Record Event := mkEvent {
  ev_title : option string;
  ev_name : option string;
  ev_start : DateField;
  ev_start_local : DateField;
  ev_end : DateField;
  ev_end_local : DateField;
  ev_date : DateField;
  ev_location : option (list PrimFloat.float);
  ev_category : option string
}.

(** The output of [normalizeEvents]. *)
Record NEvent := mkNEvent {
  title : string;
  startDate : option Z;
  endDate : option Z
}.

(** [a || b] on a string-valued field: the empty string is falsy. *)
Definition str_or (a : option string) (b : string) : string :=
  match a with
  | Some s => if String.eqb s EmptyString then b else s
  | None => b
  end.

(** [a || b] on date-valued fields. *)
Definition date_or (a b : DateField) : DateField :=
  if date_falsy a then b else a.

(** [new Date(v)]: [new Date(undefined)] is an invalid date,
    [new Date(null)] the epoch. *)
Definition new_Date (v : DateField) : option Z :=
  match v with
  | DAbsent => None
  | DNull => Some 0
  | DText p => p
  end.

(** utils.js, [normalizeEvents], the body of the [map]. *)
Definition normalizeEvent (event : Event) : NEvent :=
  {| title := str_or (ev_title event) (str_or (ev_name event) "Event");
     startDate := new_Date (date_or (ev_start event)
                           (date_or (ev_start_local event) (ev_date event)));
     endDate := new_Date (date_or (ev_end event)
                         (date_or (ev_end_local event) (ev_date event))) |}.

Definition normalizeEvents (events : list Event) : list NEvent :=
  map normalizeEvent events.

Definition blank_event : Event :=
  mkEvent None None DAbsent DAbsent DAbsent DAbsent DAbsent None None.

(* ------------------------------------------------------------------ *)
(** ** Completions: a JS call returns normally or throws *)

Inductive Completion (A : Type) :=
  | Normal (a : A)
  | Throw (error : string).
Arguments Normal {A} _.
Arguments Throw {A} _.

(** [l[i]] for an array and a number index: [undefined] out of range. *)
Definition nth_z {A} (l : list A) (i : Z) : option A :=
  if i <? 0 then None else nth_error l (Z.to_nat i).

(** [s.split(sep)] for a one-character separator; as in JS,
    [''.split(',')] is [['']]. *)
Fixpoint split_on (sep : ascii) (s : string) : list string :=
  match s with
  | EmptyString => [EmptyString]
  | String c rest =>
      let parts := split_on sep rest in
      if Ascii.eqb c sep then EmptyString :: parts
      else match parts with
           | p :: ps => String c p :: ps
           | [] => [String c EmptyString]
           end
  end.

Definition split_comma (s : string) : list string := split_on "," s.

(* ------------------------------------------------------------------ *)
(** ** [generateLocationEvents] (server.js) *)

Section Templates.
Variable cityName : string.
Local Open Scope string_scope.

Definition festivals_templates : list string :=
  [cityName ++ " Music Festival"; cityName ++ " Art & Culture Festival";
   cityName ++ " Food & Wine Festival"; cityName ++ " International Film Festival";
   cityName ++ " Street Art Festival"].

(** The [eventTemplates] object.  Only its own keys are modelled. *)
Definition eventTemplates (category : string) : option (list string) :=
  if String.eqb category "public-holidays" then Some
    [cityName ++ " Public Holiday Celebration"; "National Day in " ++ cityName;
     cityName ++ " Heritage Festival"]
  else if String.eqb category "festivals" then Some festivals_templates
  else if String.eqb category "concerts" then Some
    ["Classical Concert at " ++ cityName ++ " Concert Hall";
     "Jazz Night in " ++ cityName; "Rock Concert - " ++ cityName ++ " Arena";
     "Chamber Music at " ++ cityName ++ " Opera House";
     "Electronic Music Festival " ++ cityName]
  else if String.eqb category "sports" then Some
    [cityName ++ " Football Match"; cityName ++ " Basketball Tournament";
     cityName ++ " Marathon"; "Tennis Open " ++ cityName;
     cityName ++ " Cycling Championship"]
  else if String.eqb category "academic" then Some
    [cityName ++ " University Conference"; "Research Symposium " ++ cityName;
     "Academic Workshop at " ++ cityName; "Student Exchange Program " ++ cityName]
  else if String.eqb category "conferences" then Some
    ["Tech Conference " ++ cityName; "Business Summit " ++ cityName;
     "Innovation Forum " ++ cityName; "Startup Meetup " ++ cityName]
  else if String.eqb category "performing-arts" then Some
    ["Theatre Performance " ++ cityName; "Opera Gala " ++ cityName;
     "Ballet Show " ++ cityName; "Comedy Night " ++ cityName]
  else None.

End Templates.

(** The keys [eventTemplates] inherits from [Object.prototype]. *)
Definition object_prototype_keys : list string :=
  ["constructor"; "__proto__"; "toString"; "toLocaleString"; "valueOf";
   "hasOwnProperty"; "isPrototypeOf"; "propertyIsEnumerable";
   "__defineGetter__"; "__defineSetter__"; "__lookupGetter__";
   "__lookupSetter__"]%string.

(** [eventTemplates[category] || eventTemplates['festivals']]; an
    [undefined] category reads the key ["undefined"].  An inherited key
    gives a function, or [Object.prototype] for ['__proto__']: truthy, and
    with no element at any index, so [templates[templateIndex]] is
    [undefined] whatever index is drawn; the empty list, with the same
    one draw of [Math.random()], gives the same [undefined] title. *)
Definition templates_for (cityName : string) (category : option string)
    : list string :=
  let key := default "undefined"%string category in
  match eventTemplates cityName key with
  | Some ts => ts
  | None =>
      if existsb (String.eqb key) object_prototype_keys then []
      else festivals_templates cityName
  end.

(** The body of the innermost loop: one event on [eventDate]. *)
Definition gen_event (cityName : string) (categoryList : list string)
    (eventDate : Z) : Rand Event :=
  ci ← random_below (Z.of_nat (length categoryList));
  let category := nth_z categoryList ci in
  let templates := templates_for cityName category in
  ti ← random_below (Z.of_nat (length templates));
  let title := nth_z templates ti in
  h ← random_below 12;
  let startHour := 9 + h in
  rm ← random;
  let startMinute := if Qltb (1 # 2) rm then 0 else 30 in
  let eventStartTime := set_hours eventDate startHour startMinute in
  rd ← random;
  let durationHours := (1 + rd * 3)%Q in
  let eventEndTime :=
    date_of_number (inject_Z eventStartTime + durationHours * 60 * 60 * 1000)%Q in
  mret (mkEvent title None (DText (Some eventStartTime)) DAbsent
          (DText (Some eventEndTime)) DAbsent DAbsent None category).

(** [n] successive runs of an action, results in order. *)
Fixpoint repeatM {A} (n : nat) (m : Rand A) : Rand (list A) :=
  match n with
  | O => mret []
  | S n' => x ← m; xs ← repeatM n' m; mret (x :: xs)
  end.

(** One iteration of the [day] loop. *)
Definition gen_day (cityName : string) (categoryList : list string)
    (startDate : Z) (week day : nat) : Rand (list Event) :=
  let eventDate := add_days startDate (Z.of_nat week * 7 + Z.of_nat day) in
  k ← random_below 2;
  let eventsPerDay := k + 2 in
  repeatM (Z.to_nat eventsPerDay) (gen_event cityName categoryList eventDate).

(** One iteration of the [week] loop. *)
Definition gen_week (cityName : string) (categoryList : list string)
    (startDate : Z) (week : nat) : Rand (list Event) :=
  days ← mapM (gen_day cityName categoryList startDate week) (seq 0 7);
  mret (concat days).

(** [generateLocationEvents(locationInfo, categories, weeks)] called at
    instant [now].  [categories] is [undefined] when [None]; then
    [categories.split] throws a [TypeError].  [weeks] is an integer. *)
Definition generateLocationEvents (locCityName : option string)
    (categories : option string) (weeks : Z) (now : Z)
    : Rand (Completion (list Event)) :=
  match categories with
  | None => mret (Throw "TypeError: Cannot read properties of undefined (reading 'split')")
  | Some cats =>
      let categoryList := split_comma cats in
      let startDate := add_days now 1 in
      let cityName := str_or locCityName "Local Area" in
      weeksEvents ← mapM (gen_week cityName categoryList startDate)
                         (seq 0 (Z.to_nat weeks));
      mret (Normal (firstn 140 (concat weeksEvents)))
  end.

Definition const_random (q : Q) : nat -> Q := fun _ => q.

(* ------------------------------------------------------------------ *)
(** ** [generateICalendar] (utils.js) *)

Definition maxEventsPerDay : nat := 5.
Definition daysToFill : nat := 28.

(** [getRandomTime(date)]: hour in 8..21, minute in 0, 15, 30, 45. *)
Definition getRandomTime (date : Z) : Rand Z :=
  h ← random_below 14;
  let hour := h + 8 in
  m ← random_below 4;
  let minute := m * 15 in
  mret (set_hours date hour minute).

Definition durations : list Z := [60; 90; 120; 180].

(** [getRandomDuration()]; [undefined] ([None]) out of range. *)
Definition getRandomDuration : Rand (option Z) :=
  i ← random_below (Z.of_nat (length durations));
  mret (nth_z durations i).

(** The [while] loop for one day: places events [eventIndex], ... until
    the day holds [maxEventsPerDay] events or the input is exhausted.
    Returns the placed events and the new [eventIndex]. *)
Fixpoint day_loop (fuel : nat) (events : list NEvent) (currentDate : Z)
    (eventsForDay eventIndex : nat) : Rand (list NEvent * nat) :=
  match fuel with
  | O => mret ([], eventIndex)
  | S fuel' =>
      if (eventsForDay <? maxEventsPerDay)%nat && (eventIndex <? length events)%nat
      then match nth_error events eventIndex with
           | Some event =>
               eventStart ← getRandomTime currentDate;
               duration ← getRandomDuration;
               let eventEnd :=
                 match duration with
                 | Some d => Some (eventStart + d * ms_per_min)
                 | None => None
                 end in
               let newEvent := {| title := title event;
                                  startDate := Some eventStart;
                                  endDate := eventEnd |} in
               '(rest, idx) ← day_loop fuel' events currentDate
                                (S eventsForDay) (S eventIndex);
               mret (newEvent :: rest, idx)
           | None => mret ([], eventIndex)
           end
      else mret ([], eventIndex)
  end.

(** The [for] loop over [dayOffset]. *)
Fixpoint day_offset_loop (fuel : nat) (events : list NEvent) (today : Z)
    (dayOffset eventIndex : nat) : Rand (list NEvent) :=
  match fuel with
  | O => mret []
  | S fuel' =>
      if (dayOffset <? daysToFill)%nat && (eventIndex <? length events)%nat
      then let currentDate := add_days today (Z.of_nat dayOffset) in
           '(dayEvents, idx) ← day_loop maxEventsPerDay events currentDate 0 eventIndex;
           rest ← day_offset_loop fuel' events today (S dayOffset) idx;
           mret (dayEvents ++ rest)
      else mret []
  end.

(** [distributedEvents], with [today = new Date()]. *)
Definition distributeEvents (events : list NEvent) (today : Z) : Rand (list NEvent) :=
  day_offset_loop daysToFill events today 0 0.

(** One [VEVENT] block of the calendar built by ical-generator. *)
Record VEvent := mkVEvent {
  ve_start : option Z;
  ve_end : option Z;
  ve_summary : string;
  ve_description : string
}.

(** The calendar object; the library renders it to text unchanged. *)
Record Calendar := mkCalendar {
  cal_name : string;
  cal_description : string;
  cal_timezone : string;
  cal_events : list VEvent
}.

(** [generateICalendar(events)]: [today] is [new Date()] and [clock i]
    is the value of [Date.now()] read for the [uid] option of the [i]-th
    event.  ical-generator (required as [.default], version 2 or later)
    takes no [uid] option: it gives every event a random UUID of its own.
    The value read thus reaches no field of the calendar, and the model
    keeps no UID. *)
Definition generateICalendar (events : list NEvent) (today : Z)
    (clock : nat -> Z) : Rand Calendar :=
  distributedEvents ← distributeEvents events today;
  mret {| cal_name := "PredictHQ Events";
          cal_description := "Events fetched from PredictHQ API";
          cal_timezone := "Europe/Berlin";
          cal_events :=
            imap (fun index event =>
                    {| ve_start := startDate event; ve_end := endDate event;
                       ve_summary := title event;
                       ve_description := "Event from PredictHQ" |})
                 distributedEvents |}.

(* ------------------------------------------------------------------ *)
(** ** Numbers and the relevance filter of [POST /api/generate-calendar] *)

(** The code units [String.prototype.trim] removes, among 0-255: TAB,
    LF, VT, FF, CR, SPACE and NO-BREAK SPACE. *)
Definition js_space (c : ascii) : bool :=
  let n := nat_of_ascii c in
  ((9 <=? n) && (n <=? 13))%nat || (n =? 32)%nat || (n =? 160)%nat.

Fixpoint trim_start (s : string) : string :=
  match s with
  | EmptyString => EmptyString
  | String c rest => if js_space c then trim_start rest else s
  end.

Fixpoint string_rev (s : string) : string :=
  match s with
  | EmptyString => EmptyString
  | String c rest => (string_rev rest ++ String c EmptyString)%string
  end.

(** [s.trim()]: blanks removed at both ends. *)
Definition trim (s : string) : string :=
  string_rev (trim_start (string_rev (trim_start s))).

(** A JS number: an IEEE 754 double, Rocq's primitive [float] (with
    [NaN], the two infinities and the two zeros). *)
Abbreviation number := PrimFloat.float.

(** The digit [c] in base [radix] (at most 16), upper or lower case. *)
Definition digit_of (radix : Z) (c : ascii) : option Z :=
  let n := Z.of_nat (nat_of_ascii c) in
  let v := if (48 <=? n) && (n <=? 57) then n - 48
           else if (97 <=? n) && (n <=? 122) then n - 87
           else if (65 <=? n) && (n <=? 90) then n - 55
           else radix in
  if v <? radix then Some v else None.

(** The leading run of digits of [s] in base [radix]: the value [acc]
    extended by them, [count] increased by their number, and the rest
    of [s]. *)
Fixpoint digits (radix : Z) (s : string) (acc : Z) (count : nat) : Z * nat * string :=
  match s with
  | EmptyString => (acc, count, s)
  | String c rest =>
      match digit_of radix c with
      | Some d => digits radix rest (acc * radix + d) (S count)
      | None => (acc, count, s)
      end
  end.

(** [2 ^ k <= n / d], for [n, d > 0]. *)
Definition pow2_le_ratio (k n d : Z) : bool :=
  if 0 <=? k then d * 2 ^ k <=? n else d <=? n * 2 ^ (- k).

(** The double nearest to [n / d], ties to even, for [n, d > 0]: the
    rounding of IEEE 754, which [Number] applies to the exact value of a
    numeric string.  [k] is the binary exponent of [n / d], [u] the
    exponent of the last place (at least [-1074], for subnormals) and [m]
    the rounded significand, at most [2 ^ 53]: [m * 2 ^ u] is then a
    double, unless it reaches [2 ^ 1024] and [ldexp] gives [Infinity]. *)
Definition round_ratio (n d : Z) : number :=
  let k0 := Z.log2 n - Z.log2 d in
  let k := if pow2_le_ratio k0 n d then k0 else k0 - 1 in
  let u := Z.max (k - 52) (-1074) in
  let num := if 0 <=? u then n else n * 2 ^ (- u) in
  let den := if 0 <=? u then d * 2 ^ u else d in
  let q := num / den in
  let r := num mod den in
  let m := if (den <? 2 * r) || ((2 * r =? den) && Z.odd q) then q + 1 else q in
  FloatOps.Z.ldexp (PrimFloat.of_uint63 (Uint63.of_Z m)) u.

(** The double nearest to [m * 10 ^ e], for [m >= 0].  Above [10 ^ 309]
    every value overflows to [Infinity]; below [10 ^ -324] (less than
    half the least subnormal) every value rounds to [0]. *)
Definition decimal_value (m e : Z) : number :=
  if m =? 0 then PrimFloat.zero
  else if 309 <? e then PrimFloat.infinity
  else if e + Z.log2 m + 1 <? -324 then PrimFloat.zero
  else if 0 <=? e then round_ratio (m * 10 ^ e) 1
  else round_ratio m (10 ^ (- e)).

(** A [StrUnsignedDecimalLiteral] other than [Infinity], as [(m, e)]
    for the value [m * 10 ^ e]: digits, an optional ['.'] and digits, at
    least one digit in all, then an optional exponent [e] or [E], with
    an optional sign and at least one digit. *)
Definition unsigned_decimal (s : string) : option (Z * Z) :=
  let '(ip, ni, r1) := digits 10 s 0 0 in
  let '(m, nf, r2) :=
    match r1 with
    | String c r => if Ascii.eqb c "." then digits 10 r ip 0 else (ip, 0%nat, r1)
    | EmptyString => (ip, 0%nat, r1)
    end in
  if (ni + nf =? 0)%nat then None
  else match r2 with
       | EmptyString => Some (m, - Z.of_nat nf)
       | String c r3 =>
           if Ascii.eqb c "e" || Ascii.eqb c "E" then
             let '(sgn, r4) :=
               match r3 with
               | String c' r =>
                   if Ascii.eqb c' "+" then (1, r)
                   else if Ascii.eqb c' "-" then (-1, r) else (1, r3)
               | EmptyString => (1, r3)
               end in
             let '(x, nx, r5) := digits 10 r4 0 0 in
             match nx, r5 with
             | S _, EmptyString => Some (m, sgn * x - Z.of_nat nf)
             | _, _ => None
             end
           else None
       end.

(** A [StrUnsignedDecimalLiteral]; anything else is [NaN]. *)
Definition unsigned_number (u : string) : number :=
  if String.eqb u "Infinity" then PrimFloat.infinity
  else match unsigned_decimal u with
       | Some (m, e) => decimal_value m e
       | None => PrimFloat.nan
       end.

(** The base of a [NonDecimalIntegerLiteral] prefix [0x], [0o], [0b]. *)
Definition radix_prefix (c : ascii) : option Z :=
  if Ascii.eqb c "x" || Ascii.eqb c "X" then Some 16
  else if Ascii.eqb c "o" || Ascii.eqb c "O" then Some 8
  else if Ascii.eqb c "b" || Ascii.eqb c "B" then Some 2
  else None.

(** The digits of a [NonDecimalIntegerLiteral] after its prefix. *)
Definition non_decimal (radix : Z) (s : string) : number :=
  match digits radix s 0 0 with
  | (v, S _, EmptyString) => if v =? 0 then PrimFloat.zero else round_ratio v 1
  | _ => PrimFloat.nan
  end.

(** [Number(s)] on a string (ECMAScript's StringToNumber): the blanks
    [trim] removes are ignored at both ends; an empty string is [0]; then
    [Infinity] or a decimal literal with an optional sign, or an unsigned
    [0x], [0o] or [0b] integer; anything else is [NaN].  The value is the
    exact one rounded to the nearest double, as V8 does. *)
Definition Number (s : string) : number :=
  match trim s with
  | EmptyString => PrimFloat.zero
  | String c rest as t =>
      if Ascii.eqb c "-" then PrimFloat.opp (unsigned_number rest)
      else if Ascii.eqb c "+" then unsigned_number rest
      else match rest with
           | String x ds =>
               if Ascii.eqb c "0" then
                 match radix_prefix x with
                 | Some radix => non_decimal radix ds
                 | None => unsigned_number t
                 end
               else unsigned_number t
           | EmptyString => unsigned_number t
           end
  end.

(** [array[i]] on an array of numbers; [undefined] reads as [NaN]. *)
Definition nth_num (l : list number) (i : nat) : number :=
  match nth_error l i with Some x => x | None => PrimFloat.nan end.

(** [const [radius, coords] = location.split('@');
      const [targetLat, targetLon] = coords.split(',').map(Number);]
    [coords.split] throws when there is no ['@']. *)
Definition parse_target (location : string) : Completion (number * number) :=
  match nth_error (split_on "@" location) 1 with
  | None => Throw "TypeError: Cannot read properties of undefined (reading 'split')"
  | Some coords =>
      let nums := map Number (split_comma coords) in
      Normal (nth_num nums 0, nth_num nums 1)
  end.

(** [Math.pow(x, 2)]: V8's [Math.pow] follows fdlibm's [pow], which
    returns [x * x] for the exponent 2. *)
Definition Math_pow2 (x : number) : number := PrimFloat.mul x x.

(** [Math.sqrt(Math.pow(eventLat - targetLat, 2) +
               Math.pow(eventLon - targetLon, 2))], each operation
    rounded to a double. *)
Definition distance (eventLat eventLon targetLat targetLon : number) : number :=
  PrimFloat.sqrt (PrimFloat.add (Math_pow2 (PrimFloat.sub eventLat targetLat))
                                (Math_pow2 (PrimFloat.sub eventLon targetLon))).

(** The predicate of [predictHQEvents.filter(...)]: [event.location] is
    [[lon, lat]], and [distance < 1] is false when [distance] is [NaN]. *)
Definition isLocal (targetLat targetLon : number) (event : Event) : bool :=
  match ev_location event with
  | None => false
  | Some l =>
      let eventLon := nth_num l 0 in
      let eventLat := nth_num l 1 in
      PrimFloat.ltb (distance eventLat eventLon targetLat targetLon) PrimFloat.one
  end.

Definition localEvents (targetLat targetLon : number) (predictHQEvents : list Event)
    : list Event :=
  List.filter (isLocal targetLat targetLon) predictHQEvents.

(* ------------------------------------------------------------------ *)
(** ** The session store [global.calendarStore] *)

(** The value stored under a session id ([calendarData]). *)
Record CalendarData := mkCalendarData {
  content : Calendar;
  eventCount : nat;
  timestamp : Z;
  data_cityName : string
}.

(** Server state: the store, keyed by the session id
    [Date.now().toString()] read back by [parseInt] (so by the number
    itself), and the pending [setTimeout] deletions as (due instant,
    session id). *)
Record Server := mkServer {
  calendarStore : gmap Z CalendarData;
  timers : list (Z * Z)
}.

Definition empty_server : Server := mkServer ∅ [].

Definition ten_minutes : Z := 10 * 60 * 1000.

(** The clean-up loop: delete every key with
    [parseInt(key) < Date.now() - 10 * 60 * 1000]. *)
Definition sweep (now : Z) (store : gmap Z CalendarData) : gmap Z CalendarData :=
  filter (fun kv : Z * CalendarData => ~ (kv.1 < now - ten_minutes)) store.

(** The event loop running, at instant [now], the deletion timers due
    at or before [now]; a timer deletes its session if present.  Node
    runs a timer no earlier than its due instant, but may run it later:
    when it runs is a [Tick] of the request sequence below. *)
Definition fire_timers (now : Z) (s : Server) : Server :=
  {| calendarStore :=
       fold_right (fun (tm : Z * Z) m => if tm.1 <=? now then delete tm.2 m else m)
                  (calendarStore s) (timers s);
     timers := List.filter (fun tm : Z * Z => now <? tm.1) (timers s) |}.

(** The end of [POST /api/generate-calendar] at instant [now]:
    [sessionId = Date.now()], [calendarStore[sessionId] = calendarData],
    then the clean-up loop.  The id and [tenMinutesAgo] are two reads of
    [Date.now()] in the same synchronous code; both are taken as [now]. *)
Definition store_put (now : Z) (data : CalendarData) (s : Server) : Server :=
  {| calendarStore := sweep now (<[now := data]> (calendarStore s));
     timers := timers s |}.

(** [GET /api/download/:sessionId] at instant [now]: [Some data] is the
    200 response, [None] the 404; a served session gets a deletion timer
    1000 ms later. *)
Definition download (now sessionId : Z) (s : Server) : option CalendarData * Server :=
  match calendarStore s !! sessionId with
  | None => (None, s)
  | Some data =>
      (Some data, {| calendarStore := calendarStore s;
                     timers := timers s ++ [(now + 1000, sessionId)] |})
  end.

(** What reaches the store, each at its own instant: a store, a
    download, or a turn of the event loop running the due timers. *)
Inductive StoreOp :=
  | Put (now : Z) (data : CalendarData)
  | Get (now sessionId : Z)
  | Tick (now : Z).

Definition op_time (op : StoreOp) : Z :=
  match op with Put t _ => t | Get t _ => t | Tick t => t end.

Definition step (s : Server) (op : StoreOp) : Server :=
  match op with
  | Put t data => store_put t data s
  | Get t k => snd (download t k s)
  | Tick t => fire_timers t s
  end.

Definition run (s : Server) (ops : list StoreOp) : Server := fold_left step ops s.

(* ------------------------------------------------------------------ *)
(** ** [POST /api/generate-calendar] *)

(** The request body; [weeks] defaults to 4 when absent. *)
Record Request := mkRequest {
  req_location : option string;
  req_categories : option string;
  req_weeks : option Z;
  req_cityName : option string
}.

(** The outcome of the provider call: it throws (network failure,
    non-2xx status), or yields [response.data.results] ([None] when
    absent, read as [[]]). *)
Inductive ProviderResult :=
  | ProviderError
  | ProviderOk (results : option (list Event)).

Inductive Response :=
  | Status400 (error : string)
  | Status404 (error : string)
  | Status500 (error : string)
  | Status200 (sessionId : Z) (eventCount : nat) (useGeneratedEvents : bool)
              (events : list NEvent).

(** [!value] for a string field. *)
Definition falsy_str (v : option string) : bool :=
  match v with None => true | Some s => String.eqb s EmptyString end.

(** The [try] block around the provider: which events to keep and
    whether to fall back to [generateLocationEvents]. *)
Definition fetch_decision (hasToken : bool) (provider : ProviderResult)
    (location : string) : list Event * bool :=
  if hasToken then
    match provider with
    | ProviderError => ([], true)
    | ProviderOk results =>
        let predictHQEvents := default [] results in
        if (0 <? length predictHQEvents)%nat then
          match parse_target location with
          | Throw _ => ([], true)
          | Normal (targetLat, targetLon) =>
              let local := localEvents targetLat targetLon predictHQEvents in
              if (10 <=? length local)%nat then (local, false) else ([], true)
          end
        else ([], true)
    end
  else ([], true).

(** The handler at instant [now], all clock reads of its synchronous
    part taken equal to [now].  [hasToken] says whether
    [PREDICTHQ_TOKEN] is set. *)
Definition generate_calendar (hasToken : bool) (provider : ProviderResult)
    (req : Request) (now : Z) (s : Server) : Rand (Response * Server) :=
  match req_location req with
  | None => mret (Status400 "Location is required", s)
  | Some location =>
      if String.eqb location EmptyString then mret (Status400 "Location is required", s)
      else
      let weeks := default 4 (req_weeks req) in
      let '(events, useGeneratedEvents) := fetch_decision hasToken provider location in
      generated ← (if useGeneratedEvents
                   then generateLocationEvents (req_cityName req) (req_categories req) weeks now
                   else mret (Normal events));
      match generated with
      | Throw e => mret (Status500 e, s)
      | Normal events =>
          match events with
          | [] => mret (Status404 "No events found for the specified criteria", s)
          | _ :: _ =>
              let normalizedEvents := normalizeEvents events in
              icsContent ← generateICalendar normalizedEvents now (fun _ => now);
              let sessionId := now in
              let calendarData :=
                {| content := icsContent; eventCount := length normalizedEvents;
                   timestamp := sessionId;
                   data_cityName := str_or (req_cityName req) "Unknown" |} in
              mret (Status200 sessionId (length normalizedEvents) useGeneratedEvents
                              normalizedEvents,
                    store_put now calendarData s)
          end
      end
  end.

(* ------------------------------------------------------------------ *)
(** ** Test inputs *)

Definition berlin_request : Request :=
  mkRequest (Some "50km@52.5200,13.4050"%string) (Some "festivals"%string)
            (Some 1) (Some "Berlin"%string).

(** A provider record with both a UTC and a local start and end. *)
Definition utc_and_local_event : Event :=
  mkEvent (Some "Concert"%string) None (DText (Some 0)) (DText (Some 3600000))
          (DText (Some 7200000)) (DText (Some 10800000)) DAbsent None None.

(** A provider record with only a [date] field. *)
Definition date_only_event (t : Z) : Event :=
  mkEvent (Some "Holiday"%string) None DAbsent DAbsent DAbsent DAbsent
          (DText (Some t)) None None.

(** A provider record located at [[lon, lat]]. *)
Definition located_event (lon lat : number) : Event :=
  mkEvent (Some "Fair"%string) None (DText (Some 0)) DAbsent (DText (Some 3600000))
          DAbsent DAbsent (Some [lon; lat]) None.


(* ------------------------------------------------------------------ *)
(** ** Predicates used by the proofs *)

(** The exact value of a finite double, in lowest terms; [None] for
    [NaN] and the infinities. *)
Definition float_value (x : number) : option Q :=
  match FloatOps.Prim2SF x with
  | SpecFloat.S754_zero _ => Some 0%Q
  | SpecFloat.S754_finite sgn m e =>
      Some (Qred ((if sgn then -1 else 1) * inject_Z (Z.pos m) * 2 ^ e))%Q
  | _ => None
  end.

(** Every result of [m] satisfies [P], whatever the call counter. *)
Definition rand_holds {A} (rnd : nat -> Q) (P : A -> Prop) (m : Rand A) : Prop :=
  forall n, P (fst (m rnd n)).

(** An event built by [gen_event] for [eventDate]: a start on that day
    between 9:00 and 20:30, an end at least one hour later. *)
Definition synth_event_ok (eventDate : Z) (e : Event) : Prop :=
  exists s t, ev_start e = DText (Some s) /\ ev_end e = DText (Some t) /\
              day_of s = day_of eventDate /\ s + ms_per_hour <= t.

(** The number of events of [l] that start on calendar day [D]. *)
Definition starts_on_day (D : Z) (e : NEvent) : bool :=
  match startDate e with Some s => day_of s =? D | None => false end.

Fixpoint count_on_day (D : Z) (l : list NEvent) : nat :=
  match l with
  | [] => O
  | e :: l' => (if starts_on_day D e then 1 else 0) + count_on_day D l'
  end.



(* ------------------------------------------------------------------ *)
(** ** Loading [.env] (server.js and cron.js, the same code) *)

(** [process.env]. *)
Abbreviation Env := (gmap string string).

(** The body of [envFile.split('\n').forEach(line => ...)]:
    [const [key, value] = line.split('=');
     if (key && value) process.env[key.trim()] = value.trim();] *)
Definition env_line (env : Env) (line : string) : Env :=
  match split_on "=" line with
  | key :: value :: _ =>
      if negb (String.eqb key EmptyString) && negb (String.eqb value EmptyString)
      then <[trim key := trim value]> env
      else env
  | _ => env
  end.


(* ------------------------------------------------------------------ *)
(** ** Headers of [GET /api/download/:sessionId] *)

(** Not matched by [/[^a-zA-Z0-9]/]. *)
Definition is_alnum (c : ascii) : bool :=
  let n := nat_of_ascii c in
  ((48 <=? n) && (n <=? 57))%nat || ((65 <=? n) && (n <=? 90))%nat
  || ((97 <=? n) && (n <=? 122))%nat.

(** [s.replace(/[^a-zA-Z0-9]/g, '-')]. *)
Fixpoint replace_non_alnum (s : string) : string :=
  match s with
  | EmptyString => EmptyString
  | String c rest => String (if is_alnum c then c else "-"%char) (replace_non_alnum rest)
  end.

(** An integer as JS prints it ([Date.now().toString()], [`${n}`]). *)
Definition js_int_string (z : Z) : string := NilZero.string_of_int (Z.to_int z).

(** [`${calendarData.cityName.replace(/[^a-zA-Z0-9]/g, '-')}-events-${sessionId}.ics`] *)
Definition download_filename (cityName sessionId : string) : string :=
  (replace_non_alnum cityName ++ "-events-" ++ sessionId ++ ".ics")%string.

Definition double_quote : ascii := "034".

(** [`attachment; filename="${filename}"`] *)
Definition content_disposition (filename : string) : string :=
  ("attachment; filename=" ++
   String double_quote (filename ++ String double_quote EmptyString))%string.

Fixpoint count_char (c : ascii) (s : string) : nat :=
  match s with
  | EmptyString => O
  | String d rest => ((if Ascii.eqb c d then 1 else 0) + count_char c rest)%nat
  end.

(* ------------------------------------------------------------------ *)
(** ** The batch job [fetchPredictHQEvents] (cron.js) *)

(** The [fallbackEvents] of the [catch] block, built at instant [now]. *)
Definition fallback_sample_event (now : Z) : NEvent :=
  mkNEvent "Sample Event" (Some now) (Some (now + 2 * 60 * 60 * 1000)).

(** The calendar written to [public/events.ics] by one run at instant
    [now]: the provider's [results || []] normalized, or, when the
    provider call throws, the one sample event.  ([saveICalendarFile]
    is the write itself and is not modelled.) *)
Definition fetchPredictHQEvents (provider : ProviderResult) (now : Z)
    (clock : nat -> Z) : Rand Calendar :=
  match provider with
  | ProviderOk results =>
      generateICalendar (normalizeEvents (default [] results)) now clock
  | ProviderError => generateICalendar [fallback_sample_event now] now clock
  end.

(* ------------------------------------------------------------------ *)
(** ** [getEventDuration] (frontend, EventsDisplay) *)

(** [hours] and [minutes] of [getEventDuration] for
    [durationMs = end.getTime() - start.getTime()]: [Math.floor] of a
    quotient, and JS [%], the remainder of truncated division. *)
Definition duration_parts (durationMs : Z) : Z * Z :=
  (durationMs / (1000 * 60 * 60), Z.rem durationMs (1000 * 60 * 60) / (1000 * 60)).

(** [getEventDuration(event)] for valid dates [startDate] and [endDate]. *)
Definition getEventDuration (startDate endDate : Z) : string :=
  let '(hours, minutes) := duration_parts (endDate - startDate) in
  if hours =? 0 then (js_int_string minutes ++ "m")%string
  else if minutes =? 0 then (js_int_string hours ++ "h")%string
  else (js_int_string hours ++ "h " ++ js_int_string minutes ++ "m")%string.

(* ------------------------------------------------------------------ *)
(** ** [groupedEvents] (frontend, EventsDisplay) *)

(** [new Date(event.startDate)] in the browser.  The events reach it as
    JSON: a valid date travels as its ISO string and reads back as the
    same instant, an invalid one travels as [null], and [new Date(null)]
    is the epoch. *)
Definition fe_start (e : NEvent) : Z := default 0 (startDate e).

(** [toISOString().split('T')[0]], the [YYYY-MM-DD] of the UTC day: one
    key per day, so the key is represented by the day number itself. *)
Definition dateKey (e : NEvent) : Z := day_of (fe_start e).

(** [{ events, date }]. *)
Record FGroup := mkFGroup {
  g_events : list NEvent;
  g_date : Z
}.

(** One iteration of [props.events.forEach]: the object [groups] as its
    entries in insertion order; a new key is added at the end. *)
Fixpoint group_add (key : Z) (e : NEvent) (groups : list (Z * FGroup))
    : list (Z * FGroup) :=
  match groups with
  | [] => [(key, {| g_events := [e]; g_date := fe_start e |})]
  | (k, g) :: rest =>
      if k =? key then (k, {| g_events := g_events g ++ [e]; g_date := g_date g |}) :: rest
      else (k, g) :: group_add key e rest
  end.

(** [Array.prototype.sort] with the comparator
    [new Date(a.startDate).getTime() - new Date(b.startDate).getTime()].
    The sort is stable, and a stable sort has a single result, which
    insertion sort computes: [e] goes before the first element that does
    not start strictly earlier. *)
Fixpoint insert_by_start (e : NEvent) (l : list NEvent) : list NEvent :=
  match l with
  | [] => [e]
  | y :: ys => if fe_start y <? fe_start e then y :: insert_by_start e ys else e :: y :: ys
  end.

Fixpoint sort_by_start (l : list NEvent) : list NEvent :=
  match l with
  | [] => []
  | x :: xs => insert_by_start x (sort_by_start xs)
  end.

(** The computed property [groupedEvents]. *)
Definition groupedEvents (events : list NEvent) : list (Z * FGroup) :=
  map (fun kg : Z * FGroup =>
         (kg.1, {| g_events := sort_by_start (g_events kg.2); g_date := g_date kg.2 |}))
      (fold_left (fun groups e => group_add (dateKey e) e groups) events []).

(* ------------------------------------------------------------------ *)
(** ** Further predicates used by the proofs *)

(** An instant on day [D] at one of the times [getRandomTime] draws. *)
Definition calendar_slot (D t : Z) : Prop :=
  exists h m, 8 <= h <= 21 /\ In m [0; 15; 30; 45] /\
              t = D * ms_per_day + h * ms_per_hour + m * ms_per_min.

(** An event placed by the distribution on day [D]. *)
Definition placed_on (D : Z) (e : NEvent) : Prop :=
  exists s d, startDate e = Some s /\ calendar_slot D s /\
              In d durations /\ endDate e = Some (s + d * ms_per_min).

(** An event built by [gen_event] for [eventDate] from [categoryList]. *)
Definition synth_event_detail (categoryList : list string) (eventDate : Z) (e : Event)
    : Prop :=
  (exists c, ev_category e = Some c /\ In c categoryList) /\
  exists s t h m, ev_start e = DText (Some s) /\ ev_end e = DText (Some t) /\
    9 <= h <= 20 /\ (m = 0 \/ m = 30) /\
    s = day_of eventDate * ms_per_day + h * ms_per_hour + m * ms_per_min /\
    s + ms_per_hour <= t <= s + 4 * ms_per_hour.

(** Every character of [s] satisfies [f]. *)
Fixpoint all_chars (f : ascii -> bool) (s : string) : bool :=
  match s with
  | EmptyString => true
  | String c rest => f c && all_chars f rest
  end.

(** Letters, digits, ['-'] and ['.']. *)
Definition filename_char (c : ascii) : bool :=
  is_alnum c || Ascii.eqb c "-" || Ascii.eqb c ".".

(* ------------------------------------------------------------------ *)
(** * Tests on concrete inputs *)

Example normalize_blank :
  normalizeEvent blank_event = mkNEvent "Event" None None.
Proof. reflexivity. Qed.

Example generate_one_week :
  match fst (generateLocationEvents (Some "Berlin"%string) (Some "festivals"%string)
               1 0 (const_random 0) 0%nat) with
  | Normal evs => length evs = 14%nat
  | Throw _ => False
  end.
Proof. vm_compute. reflexivity. Qed.

Example distribute_12 :
  map startDate (fst (distributeEvents (repeat (mkNEvent "a" None None) 12) 0
                        (const_random 0) 0%nat))
  = map (fun d => Some (d * ms_per_day + 8 * ms_per_hour))
        [0;0;0;0;0;1;1;1;1;1;2;2].
Proof. vm_compute. reflexivity. Qed.

Example parse_berlin :
  parse_target "50km@52.5200,13.4050" = Normal (Number "52.52", Number "13.405") /\
  parse_target "1km@ 52.52 , 13.405 " = Normal (Number "52.52", Number "13.405").
Proof. split; vm_compute; reflexivity. Qed.

Example Number_syntaxes :
  float_value (Number " 1e3 ") = Some 1000%Q /\
  float_value (Number "0x1F") = Some 31%Q /\
  float_value (Number ".5") = Some (1 # 2) /\
  float_value (Number "") = Some 0%Q /\
  Number "-0" = PrimFloat.opp PrimFloat.zero /\
  Number "+Infinity" = PrimFloat.infinity /\
  Number "1e309" = PrimFloat.infinity /\
  Number "1_000" = PrimFloat.nan /\
  Number "-0x10" = PrimFloat.nan /\
  Number "1km" = PrimFloat.nan.
Proof. vm_compute. repeat split; reflexivity. Qed.

(** Rounding to the nearest double: [0.1] is [3602879701896397 / 2 ^ 55],
    [2 ^ 53 + 1] rounds to the even [2 ^ 53], and [5e-324] is the least
    subnormal [2 ^ -1074]. *)
Example Number_rounding :
  float_value (Number "0.1") = Some (3602879701896397 # 36028797018963968) /\
  float_value (Number "9007199254740993") = Some 9007199254740992%Q /\
  float_value (Number "5e-324") = Some (2 ^ (-1074))%Q.
Proof. vm_compute. repeat split; reflexivity. Qed.

Example berlin_end_to_end :
  match fst (fst (generate_calendar false ProviderError berlin_request 0 empty_server
                    (const_random 0) 0%nat)) with
  | Status200 sid n true _ => sid = 0 /\ n = 14%nat
  | _ => False
  end.
Proof. vm_compute. split; reflexivity. Qed.

Example missing_location_400 :
  fst (fst (generate_calendar false ProviderError
              (mkRequest None (Some "festivals"%string) None None) 0 empty_server
              (const_random 0) 0%nat))
  = Status400 "Location is required".
Proof. reflexivity. Qed.

(* ------------------------------------------------------------------ *)
(** * Properties *)

(** ** Date resolution of [normalizeEvents] *)

(** C2 (amended).  [normalizeEvents] resolves the start from [start]
    (UTC) first, then [start_local], then [date], and the end from [end],
    then [end_local], then [date]: the first truthy field wins. *)
Theorem normalize_date_resolution (e : Event) :
  (date_falsy (ev_start e) = false ->
     startDate (normalizeEvent e) = new_Date (ev_start e)) /\
  (date_falsy (ev_start e) = true -> date_falsy (ev_start_local e) = false ->
     startDate (normalizeEvent e) = new_Date (ev_start_local e)) /\
  (date_falsy (ev_start e) = true -> date_falsy (ev_start_local e) = true ->
     startDate (normalizeEvent e) = new_Date (ev_date e)) /\
  (date_falsy (ev_end e) = false ->
     endDate (normalizeEvent e) = new_Date (ev_end e)) /\
  (date_falsy (ev_end e) = true -> date_falsy (ev_end_local e) = false ->
     endDate (normalizeEvent e) = new_Date (ev_end_local e)) /\
  (date_falsy (ev_end e) = true -> date_falsy (ev_end_local e) = true ->
     endDate (normalizeEvent e) = new_Date (ev_date e)).
Proof.
  destruct e as [ti na s sl en el d loc cat]; unfold normalizeEvent, date_or; simpl.
  repeat split; intros; repeat match goal with H : date_falsy _ = _ |- _ => rewrite H; clear H end;
    reflexivity.
Qed.

Lemma normalize_date_resolution_witness :
  date_falsy (ev_start utc_and_local_event) = false /\
  startDate (normalizeEvent utc_and_local_event) = new_Date (ev_start utc_and_local_event).
Proof.
  split; [reflexivity |].
  exact (proj1 (normalize_date_resolution utc_and_local_event) eq_refl).
Defined.

(** C2 (counterexample).  A record with both [start] and [start_local]
    is not normalized from [start_local]: the local field is not
    preferred. *)
Lemma normalize_prefers_local_counterexample :
  ~ (forall e : Event, date_falsy (ev_start_local e) = false ->
       startDate (normalizeEvent e) = new_Date (ev_start_local e)).
Proof.
  intros H. specialize (H utc_and_local_event eq_refl).
  vm_compute in H. discriminate H.
Qed.

(** ** Input validation of [POST /api/generate-calendar] *)

(** C10.  With a location but no [categories] and no provider token,
    the handler answers 500 (the [TypeError] of [categories.split]
    inside [generateLocationEvents]), not 400, and the store is left
    unchanged. *)
Theorem generate_without_categories_500 (provider : ProviderResult)
    (location : string) (weeks : option Z) (cityName : option string)
    (now : Z) (s : Server) (rnd : nat -> Q) (n : nat)
    (Hloc : location <> EmptyString) :
  exists e,
    fst (generate_calendar false provider (mkRequest (Some location) None weeks cityName)
           now s rnd n) = (Status500 e, s).
Proof.
  unfold generate_calendar; simpl.
  destruct (String.eqb location EmptyString) eqn:E.
  - apply String.eqb_eq in E. contradiction.
  - eexists. reflexivity.
Qed.

Lemma generate_without_categories_500_witness :
  exists e,
    fst (generate_calendar false ProviderError
           (mkRequest (Some "50km@52.5200,13.4050"%string) None None (Some "Berlin"%string))
           0 empty_server (const_random 0) 0%nat) = (Status500 e, empty_server).
Proof.
  apply generate_without_categories_500. discriminate.
Defined.

(** ** Reasoning about [Rand] *)

Section RandLemmas.
Context (rnd : nat -> Q).

Lemma rand_holds_ret {A} (P : A -> Prop) (x : A) : P x -> rand_holds rnd P (mret x).
Proof. intros Hx n. exact Hx. Qed.

Lemma rand_holds_bind {A B} (Pa : A -> Prop) (P : B -> Prop) (m : Rand A)
    (f : A -> Rand B) :
  rand_holds rnd Pa m -> (forall a, Pa a -> rand_holds rnd P (f a)) ->
  rand_holds rnd P (m ≫= f).
Proof.
  intros Hm Hf n. unfold mbind, Rand_bind.
  specialize (Hm n). destruct (m rnd n) as [a n'] eqn:E. simpl in Hm.
  exact (Hf a Hm n').
Qed.

Lemma rand_holds_weaken {A} (P P' : A -> Prop) (m : Rand A) :
  (forall a, P a -> P' a) -> rand_holds rnd P m -> rand_holds rnd P' m.
Proof. intros HP Hm n. apply HP, Hm. Qed.

Lemma rand_holds_true {A} (m : Rand A) : rand_holds rnd (fun _ => True) m.
Proof. intros n. exact I. Qed.

Lemma rand_holds_mapM {A B} (P : B -> Prop) (f : A -> Rand B) (l : list A) :
  (forall x, rand_holds rnd P (f x)) -> rand_holds rnd (Forall P) (mapM f l).
Proof.
  intros Hf. induction l as [|x l IH]; simpl.
  - apply rand_holds_ret. constructor.
  - eapply rand_holds_bind; [apply Hf | intros y Hy].
    eapply rand_holds_bind; [apply IH | intros ys Hys].
    apply rand_holds_ret. constructor; assumption.
Qed.

Lemma rand_holds_repeatM {A} (P : A -> Prop) (k : nat) (m : Rand A) :
  rand_holds rnd P m -> rand_holds rnd (Forall P) (repeatM k m).
Proof.
  intros Hm. induction k as [|k IH]; simpl.
  - apply rand_holds_ret. constructor.
  - eapply rand_holds_bind; [apply Hm | intros y Hy].
    eapply rand_holds_bind; [apply IH | intros ys Hys].
    apply rand_holds_ret. constructor; assumption.
Qed.

Hypothesis Hrnd : random_ok rnd.

Lemma rand_holds_random : rand_holds rnd (fun r => 0 <= r < 1)%Q random.
Proof. intros n. apply Hrnd. Qed.

Lemma floor_scaled_bounds (r : Q) (k : Z) :
  (0 <= r < 1)%Q -> 0 < k -> 0 <= Qfloor (r * inject_Z k) < k.
Proof.
  intros [H0 H1] Hk. split.
  - change 0 with (Qfloor (inject_Z 0)).
    apply Qfloor_resp_le. apply Qmult_le_0_compat; [assumption |].
    unfold Qle; simpl; lia.
  - rewrite Zlt_Qlt. eapply Qle_lt_trans; [apply Qfloor_le |].
    rewrite <- (Qmult_1_l (inject_Z k)) at 2.
    apply Qmult_lt_compat_r; [| assumption].
    unfold Qlt; simpl; lia.
Qed.

Lemma random_below_bounds (k : Z) :
  0 < k -> rand_holds rnd (fun z => 0 <= z < k) (random_below k).
Proof.
  intros Hk. unfold random_below.
  eapply rand_holds_bind; [apply rand_holds_random | intros r Hr].
  apply rand_holds_ret. apply floor_scaled_bounds; assumption.
Qed.

End RandLemmas.

(** ** The fallback synthesizer *)

Lemma day_of_set_hours (t h m : Z) :
  0 <= h * ms_per_hour + m * ms_per_min < ms_per_day ->
  day_of (set_hours t h m) = day_of t.
Proof.
  intros H. unfold set_hours, day_of.
  rewrite <- Z.add_assoc, Z.div_add_l by (unfold ms_per_day; lia).
  rewrite (Z.div_small (h * ms_per_hour + m * ms_per_min) ms_per_day) by exact H. lia.
Qed.

Lemma day_of_add_days (t k : Z) : day_of (add_days t k) = day_of t + k.
Proof.
  unfold day_of, add_days. rewrite Z.div_add by (unfold ms_per_day; lia). reflexivity.
Qed.

Lemma date_of_number_ge (z : Z) (x : Q) : (inject_Z z <= x)%Q -> z <= date_of_number x.
Proof.
  intros H. unfold date_of_number.
  assert (Hf : z <= Qfloor x) by (rewrite <- (Qfloor_Z z); apply Qfloor_resp_le; exact H).
  destruct (Qle_bool 0 x); [exact Hf |].
  pose proof (Qle_floor_ceiling x) as Hc. rewrite <- Zle_Qle in Hc. lia.
Qed.

Section Synthesizer.
Context (rnd : nat -> Q) (Hrnd : random_ok rnd).

Lemma gen_event_ok (cityName : string) (categoryList : list string) (eventDate : Z) :
  rand_holds rnd (synth_event_ok eventDate) (gen_event cityName categoryList eventDate).
Proof.
  unfold gen_event. cbv zeta.
  eapply rand_holds_bind; [apply rand_holds_true | intros ci _].
  eapply rand_holds_bind; [apply rand_holds_true | intros ti _].
  eapply rand_holds_bind; [apply (random_below_bounds rnd Hrnd 12); lia | intros h Hh].
  eapply rand_holds_bind; [apply rand_holds_true | intros rm _].
  eapply rand_holds_bind; [apply (rand_holds_random rnd Hrnd) | intros rd [Hrd0 Hrd1]].
  apply rand_holds_ret.
  set (m := if Qltb (1 # 2) rm then 0 else 30).
  assert (Hm : 0 <= m <= 30) by (unfold m; destruct (Qltb _ _); lia).
  set (s := set_hours eventDate (9 + h) m).
  exists s, (date_of_number (inject_Z s + (1 + rd * 3) * 60 * 60 * 1000)%Q).
  repeat split.
  - apply day_of_set_hours. unfold ms_per_hour, ms_per_min, ms_per_day. cbv beta in Hh. lia.
  - apply date_of_number_ge. rewrite inject_Z_plus.
    replace (inject_Z ms_per_hour) with (3600000 # 1) by reflexivity. lra.
Qed.

Lemma gen_day_ok (cityName : string) (categoryList : list string) (startDate : Z)
    (week day : nat) :
  rand_holds rnd
    (Forall (synth_event_ok (add_days startDate (Z.of_nat week * 7 + Z.of_nat day))))
    (gen_day cityName categoryList startDate week day).
Proof.
  unfold gen_day. cbv zeta.
  eapply rand_holds_bind; [apply rand_holds_true | intros k _].
  apply rand_holds_repeatM, gen_event_ok.
Qed.

Lemma gen_week_ok (cityName : string) (categoryList : list string) (startDate : Z)
    (week : nat) :
  rand_holds rnd
    (Forall (fun e => exists eventDate,
               day_of startDate <= day_of eventDate /\ synth_event_ok eventDate e))
    (gen_week cityName categoryList startDate week).
Proof.
  unfold gen_week.
  apply (rand_holds_bind rnd (Forall (Forall (fun e => exists eventDate,
           day_of startDate <= day_of eventDate /\ synth_event_ok eventDate e)))).
  - apply rand_holds_mapM. intros day.
    eapply rand_holds_weaken; [| apply gen_day_ok].
    intros evs Hevs. eapply Forall_impl; [exact Hevs |].
    intros e He. eexists; split; [| exact He].
    rewrite day_of_add_days. lia.
  - intros days Hdays. apply rand_holds_ret.
    apply Forall_concat. exact Hdays.
Qed.

Lemma generateLocationEvents_ok (cityName : option string) (categories : string)
    (weeks now : Z) :
  rand_holds rnd
    (fun c => match c with
              | Normal evs =>
                  (length evs <= 140)%nat /\
                  Forall (fun e => exists eventDate,
                            day_of now < day_of eventDate /\ synth_event_ok eventDate e) evs
              | Throw _ => False
              end)
    (generateLocationEvents cityName (Some categories) weeks now).
Proof.
  unfold generateLocationEvents. cbv zeta.
  apply (rand_holds_bind rnd (Forall (Forall (fun e => exists eventDate,
           day_of (add_days now 1) <= day_of eventDate /\ synth_event_ok eventDate e)))).
  - apply rand_holds_mapM. intros week. apply gen_week_ok.
  - intros weeksEvents Hw. apply rand_holds_ret. split.
    + apply firstn_le_length.
    + apply Forall_take. apply Forall_concat.
      eapply Forall_impl; [exact Hw |]. intros evs Hevs.
      eapply Forall_impl; [exact Hevs |]. intros e [d [Hd He]].
      exists d. split; [| exact He].
      rewrite day_of_add_days in Hd. lia.
Qed.

End Synthesizer.

(** C5.  For every city name, category list (a string) and week count,
    [generateLocationEvents] returns at most 140 events, and every event
    starts on a later calendar day than the call: none falls on the
    current day. *)
Theorem fallback_at_most_140_from_tomorrow (rnd : nat -> Q) (Hrnd : random_ok rnd)
    (cityName : option string) (categories : string) (weeks now : Z) (n : nat) :
  match fst (generateLocationEvents cityName (Some categories) weeks now rnd n) with
  | Normal evs =>
      (length evs <= 140)%nat /\
      Forall (fun e => exists s, ev_start e = DText (Some s) /\ day_of now < day_of s) evs
  | Throw _ => False
  end.
Proof.
  pose proof (generateLocationEvents_ok rnd Hrnd cityName categories weeks now n) as H.
  destruct (fst (generateLocationEvents cityName (Some categories) weeks now rnd n))
    as [evs|e]; [| exact H].
  destruct H as [Hl Hf]. split; [exact Hl |].
  eapply Forall_impl; [exact Hf |].
  intros e [d [Hd [s [t [Hs [_ [Hday _]]]]]]].
  exists s. split; [exact Hs | lia].
Qed.

Lemma fallback_at_most_140_from_tomorrow_witness :
  random_ok (const_random 0) /\
  match fst (generateLocationEvents (Some "Berlin"%string) (Some "festivals,sports"%string)
               12 0 (const_random 0) 0%nat) with
  | Normal evs =>
      (length evs <= 140)%nat /\
      Forall (fun e => exists s, ev_start e = DText (Some s) /\ day_of 0 < day_of s) evs
  | Throw _ => False
  end.
Proof.
  split.
  - intros i. split; vm_compute; [discriminate | reflexivity].
  - apply fallback_at_most_140_from_tomorrow.
    intros i. split; vm_compute; [discriminate | reflexivity].
Defined.

(** ** Ordering of normalized timestamps *)

(** C6 (amended).  [normalizeEvents] does not enforce [start < end]: a
    record whose only date field is [date] is normalized with
    [start = end].  Events of the fallback synthesizer do satisfy it,
    with an end at least one hour after the start. *)
Theorem normalize_order_not_enforced (rnd : nat -> Q) (Hrnd : random_ok rnd) :
  (forall e : Event,
     ev_start e = DAbsent -> ev_start_local e = DAbsent ->
     ev_end e = DAbsent -> ev_end_local e = DAbsent ->
     startDate (normalizeEvent e) = new_Date (ev_date e) /\
     endDate (normalizeEvent e) = new_Date (ev_date e)) /\
  (forall (cityName : option string) (categories : string) (weeks now : Z) (n : nat),
     match fst (generateLocationEvents cityName (Some categories) weeks now rnd n) with
     | Normal evs =>
         Forall (fun e => exists s t, startDate (normalizeEvent e) = Some s /\
                                      endDate (normalizeEvent e) = Some t /\
                                      s + ms_per_hour <= t) evs
     | Throw _ => False
     end).
Proof.
  split.
  - intros [ti na s sl en el d loc cat]; simpl; intros -> -> -> ->. split; reflexivity.
  - intros cityName categories weeks now n.
    pose proof (generateLocationEvents_ok rnd Hrnd cityName categories weeks now n) as H.
    destruct (fst (generateLocationEvents cityName (Some categories) weeks now rnd n))
      as [evs|e]; [| exact H].
    destruct H as [_ Hf]. eapply Forall_impl; [exact Hf |].
    intros e [d [_ [s [t [Hs [Ht [_ Hst]]]]]]].
    exists s, t. unfold normalizeEvent; simpl. rewrite Hs, Ht. auto.
Qed.

Lemma normalize_order_not_enforced_witness :
  random_ok (const_random 0) /\
  startDate (normalizeEvent (date_only_event 0)) = endDate (normalizeEvent (date_only_event 0)).
Proof.
  split.
  - intros i. split; vm_compute; [discriminate | reflexivity].
  - destruct (proj1 (normalize_order_not_enforced (const_random 0)
                      ltac:(intros i; split; vm_compute; [discriminate | reflexivity]))
                    (date_only_event 0) eq_refl eq_refl eq_refl eq_refl) as [-> ->].
    reflexivity.
Defined.

(** C6 (counterexample).  A provider record with only a [date] field is
    normalized with equal start and end, so [start < end] fails. *)
Lemma normalize_start_before_end_counterexample :
  ~ (forall (e : Event) (s t : Z),
       startDate (normalizeEvent e) = Some s -> endDate (normalizeEvent e) = Some t -> s < t).
Proof.
  intros H. specialize (H (date_only_event 0) 0 0 eq_refl eq_refl). lia.
Qed.

(** ** The day distribution of [generateICalendar] *)

Lemma skipn_nth_error {A} (l : list A) (i : nat) (x : A) :
  nth_error l i = Some x -> skipn i l = x :: skipn (S i) l.
Proof.
  revert i. induction l as [|y l IH]; intros [|i] H; simpl in *; try discriminate.
  - injection H as ->. reflexivity.
  - apply IH, H.
Qed.

Lemma firstn_plus_split {A} (a b : nat) (l : list A) :
  firstn (a + b) l = firstn a l ++ firstn b (skipn a l).
Proof.
  revert l. induction a as [|a IH]; intros [|x l]; simpl; try reflexivity.
  - rewrite firstn_nil. reflexivity.
  - f_equal. apply IH.
Qed.

Lemma count_on_day_app (D : Z) (l1 l2 : list NEvent) :
  count_on_day D (l1 ++ l2) = (count_on_day D l1 + count_on_day D l2)%nat.
Proof. induction l1 as [|e l1 IH]; simpl; [reflexivity | rewrite IH; lia]. Qed.

Lemma count_on_day_le_length (D : Z) (l : list NEvent) : (count_on_day D l <= length l)%nat.
Proof. induction l as [|e l IH]; simpl; [lia | destruct (starts_on_day D e); lia]. Qed.

Lemma count_on_day_other (D : Z) (l : list NEvent) :
  Forall (fun e => starts_on_day D e = false) l -> count_on_day D l = O.
Proof. induction 1 as [|e l He _ IH]; simpl; [reflexivity | rewrite He, IH; reflexivity]. Qed.

Section Distribution.
Context (rnd : nat -> Q).

Lemma rand_holds_and {A} (P P' : A -> Prop) (m : Rand A) :
  rand_holds rnd P m -> rand_holds rnd P' m -> rand_holds rnd (fun a => P a /\ P' a) m.
Proof. intros H1 H2 n. split; [apply H1 | apply H2]. Qed.

(** The [while] loop places the next [min 5 (remaining)] events, in order. *)
Lemma day_loop_shape (events : list NEvent) (currentDate : Z) (fuel : nat) :
  forall eventsForDay eventIndex,
  rand_holds rnd
    (fun p => p.2 = (eventIndex + length p.1)%nat /\
              length p.1 = Nat.min fuel (Nat.min (maxEventsPerDay - eventsForDay)
                                                 (length events - eventIndex)) /\
              map title p.1 = firstn (length p.1) (skipn eventIndex (map title events)))
    (day_loop fuel events currentDate eventsForDay eventIndex).
Proof.
  induction fuel as [|fuel IH]; intros c i; cbn [day_loop].
  - apply rand_holds_ret. cbn [fst snd length]. repeat split; lia.
  - destruct ((c <? maxEventsPerDay)%nat && (i <? length events)%nat) eqn:E.
    + apply andb_prop in E as [E1 E2].
      apply Nat.ltb_lt in E1, E2.
      destruct (nth_error events i) as [event|] eqn:En;
        [| apply nth_error_None in En; lia].
      apply (rand_holds_bind rnd (fun _ => True)); [apply rand_holds_true | intros st _].
      apply (rand_holds_bind rnd (fun _ => True)); [apply rand_holds_true | intros du _].
      cbv zeta.
      eapply rand_holds_bind; [apply IH | intros [rest idx] [H1 [H2 H3]]].
      apply rand_holds_ret. cbn [fst snd length map] in *. unfold maxEventsPerDay in *. split; [lia |]. split; [lia |].
      rewrite (skipn_nth_error (map title events) i (title event))
        by (rewrite nth_error_map, En; reflexivity).
      simpl. f_equal. exact H3.
    + apply rand_holds_ret. cbn [fst snd length map].
      unfold maxEventsPerDay in E.
      apply andb_false_iff in E as [E|E]; apply Nat.ltb_ge in E;
        (unfold maxEventsPerDay; split; [lia |]; split; [lia | reflexivity]).
Qed.

Hypothesis Hrnd : random_ok rnd.

Lemma getRandomTime_day (date : Z) :
  rand_holds rnd (fun s => day_of s = day_of date) (getRandomTime date).
Proof.
  unfold getRandomTime. cbv zeta.
  eapply rand_holds_bind; [apply (random_below_bounds rnd Hrnd 14); lia | intros h Hh].
  eapply rand_holds_bind; [apply (random_below_bounds rnd Hrnd 4); lia | intros m Hm].
  apply rand_holds_ret. cbv beta in Hh, Hm.
  apply day_of_set_hours. unfold ms_per_hour, ms_per_min, ms_per_day. lia.
Qed.

(** Every event placed by the [while] loop starts on [currentDate]. *)
Lemma day_loop_days (events : list NEvent) (currentDate : Z) (fuel : nat) :
  forall eventsForDay eventIndex,
  rand_holds rnd
    (fun p => Forall (fun e => exists s, startDate e = Some s /\
                                         day_of s = day_of currentDate) p.1)
    (day_loop fuel events currentDate eventsForDay eventIndex).
Proof.
  induction fuel as [|fuel IH]; intros c i; simpl.
  - apply rand_holds_ret. constructor.
  - destruct ((c <? maxEventsPerDay)%nat && (i <? length events)%nat).
    + destruct (nth_error events i) as [event|].
      * eapply rand_holds_bind; [apply getRandomTime_day | intros st Hst].
        apply (rand_holds_bind rnd (fun _ => True)); [apply rand_holds_true | intros du _].
        cbv zeta.
        eapply rand_holds_bind; [apply IH | intros [rest idx] Hrest].
        apply rand_holds_ret. simpl in *. constructor; [| exact Hrest].
        exists st. split; [reflexivity | exact Hst].
      * apply rand_holds_ret. constructor.
    + apply rand_holds_ret. constructor.
Qed.

(** The [for] loop over days: [maxEventsPerDay] events per day, in order,
    for at most [daysToFill] days. *)
Lemma day_offset_loop_shape (events : list NEvent) (today : Z) (fuel : nat) :
  forall dayOffset eventIndex,
  rand_holds rnd
    (fun out => map title out =
                firstn (maxEventsPerDay * Nat.min fuel (daysToFill - dayOffset))
                       (skipn eventIndex (map title events)))
    (day_offset_loop fuel events today dayOffset eventIndex).
Proof.
  induction fuel as [|fuel IH]; intros d i; cbn [day_offset_loop].
  - apply rand_holds_ret. rewrite Nat.min_0_l, Nat.mul_0_r. reflexivity.
  - destruct ((d <? daysToFill)%nat && (i <? length events)%nat) eqn:E.
    + apply andb_prop in E as [E1 E2]. apply Nat.ltb_lt in E1, E2.
      cbv zeta.
      eapply rand_holds_bind; [apply day_loop_shape | intros [rest idx] [H1 [H2 H3]]].
      eapply rand_holds_bind; [apply IH | intros rest2 H4].
      apply rand_holds_ret. cbn [fst snd] in *.
      rewrite map_app, H3, H4, H1.
      unfold maxEventsPerDay, daysToFill in *.
      replace (5 * Nat.min (S fuel) (28 - d))%nat
        with (5 + 5 * Nat.min fuel (28 - S d))%nat by lia.
      rewrite firstn_plus_split, skipn_skipn.
      assert (HT : length (skipn i (map title events)) = (length events - i)%nat)
        by (rewrite length_skipn, length_map; reflexivity).
      destruct (Nat.le_gt_cases 5 (length events - i)) as [Hge | Hlt].
      * replace (length rest) with 5%nat by lia.
        replace (i + 5)%nat with (5 + i)%nat by lia. reflexivity.
      * replace (length rest) with (length events - i)%nat by lia.
        rewrite <- HT, firstn_all.
        rewrite (firstn_all2 (n := 5%nat)) by lia.
        rewrite (skipn_all2 (n := (i + _)%nat)) by (rewrite length_map; lia).
        rewrite (skipn_all2 (n := (5 + i)%nat)) by (rewrite length_map; lia).
        reflexivity.
    + apply rand_holds_ret.
      apply andb_false_iff in E as [E|E]; apply Nat.ltb_ge in E.
      * unfold daysToFill in *. replace (28 - d)%nat with O by lia.
        rewrite Nat.min_0_r, Nat.mul_0_r. reflexivity.
      * rewrite skipn_all2 by (rewrite length_map; exact E).
        rewrite firstn_nil. reflexivity.
Qed.

(** Events of day [dayOffset] onwards start in the window, at most
    [maxEventsPerDay] on any calendar day. *)
Lemma day_offset_loop_days (events : list NEvent) (today : Z) (fuel : nat) :
  forall dayOffset eventIndex,
  rand_holds rnd
    (fun out =>
       Forall (fun e => exists s, startDate e = Some s /\
                 day_of today + Z.of_nat dayOffset <= day_of s < day_of today + 28) out /\
       forall D, (count_on_day D out <= 5)%nat)
    (day_offset_loop fuel events today dayOffset eventIndex).
Proof.
  induction fuel as [|fuel IH]; intros d i; cbn [day_offset_loop].
  - apply rand_holds_ret. split; [constructor | intros D; simpl; lia].
  - destruct ((d <? daysToFill)%nat && (i <? length events)%nat) eqn:E.
    + apply andb_prop in E as [E1 _]. apply Nat.ltb_lt in E1.
      unfold daysToFill in E1. cbv zeta.
      eapply rand_holds_bind;
        [apply rand_holds_and; [apply day_loop_shape | apply day_loop_days]
        | intros [rest idx] [[H1 [H2 H3]] H4]].
      eapply rand_holds_bind; [apply IH | intros rest2 [H5 H6]].
      apply rand_holds_ret. cbn [fst snd] in *.
      rewrite day_of_add_days in H4.
      split.
      * apply Forall_app. split.
        -- eapply Forall_impl; [exact H4 |]. intros e [s [Hs Hd]].
           exists s. split; [exact Hs | lia].
        -- eapply Forall_impl; [exact H5 |]. intros e [s [Hs Hd]].
           exists s. split; [exact Hs | lia].
      * intros D. rewrite count_on_day_app.
        destruct (Z.eq_dec D (day_of today + Z.of_nat d)) as [->|Hne].
        -- rewrite (count_on_day_other _ rest2).
           ++ pose proof (count_on_day_le_length (day_of today + Z.of_nat d) rest).
              unfold maxEventsPerDay in H2. lia.
           ++ eapply Forall_impl; [exact H5 |]. intros e [s [Hs Hd]].
              unfold starts_on_day. rewrite Hs. apply Z.eqb_neq. lia.
        -- rewrite (count_on_day_other _ rest).
           ++ specialize (H6 D). lia.
           ++ eapply Forall_impl; [exact H4 |]. intros e [s [Hs Hd]].
              unfold starts_on_day. rewrite Hs. apply Z.eqb_neq. lia.
    + apply rand_holds_ret. split; [constructor | intros D; simpl; lia].
Qed.

End Distribution.


(** C8.  The day distribution places at most 5 events on any calendar
    day, starts every placed event within the 28 days from today's date,
    and takes the input events in order, keeping the first 140 and
    dropping the rest. *)
Theorem distribute_at_most_5_per_day_in_window (rnd : nat -> Q) (Hrnd : random_ok rnd)
    (events : list NEvent) (today : Z) (n : nat) :
  (forall D, (count_on_day D (fst (distributeEvents events today rnd n)) <= 5)%nat) /\
  Forall (fun e => exists s, startDate e = Some s /\
                             day_of today <= day_of s < day_of today + 28)
         (fst (distributeEvents events today rnd n)) /\
  map title (fst (distributeEvents events today rnd n)) = firstn 140 (map title events).
Proof.
  pose proof (day_offset_loop_shape rnd events today daysToFill 0 0 n) as Hs.
  pose proof (day_offset_loop_days rnd Hrnd events today daysToFill 0 0 n) as [Hw Hc].
  unfold distributeEvents. split; [exact Hc |]. split.
  - eapply Forall_impl; [exact Hw |]. intros e [s [Hs' Hd]].
    exists s. split; [exact Hs' | simpl in Hd; lia].
  - exact Hs.
Qed.

Lemma distribute_at_most_5_per_day_in_window_witness :
  random_ok (const_random 0) /\
  map title (fst (distributeEvents (repeat (mkNEvent "a" None None) 150) 0
                    (const_random 0) 0%nat))
  = firstn 140 (map title (repeat (mkNEvent "a" None None) 150)).
Proof.
  split.
  - intros i. split; vm_compute; [discriminate | reflexivity].
  - apply (distribute_at_most_5_per_day_in_window (const_random 0)).
    intros i. split; vm_compute; [discriminate | reflexivity].
Defined.



(** ** The on-demand path *)

(** The distribution reads nothing of an event but its title. *)
Lemma day_loop_titles (e1 e2 : list NEvent) (currentDate : Z) (fuel : nat) :
  map title e1 = map title e2 ->
  forall eventsForDay eventIndex rnd n,
  day_loop fuel e1 currentDate eventsForDay eventIndex rnd n
  = day_loop fuel e2 currentDate eventsForDay eventIndex rnd n.
Proof.
  intros Ht.
  assert (Hl : length e1 = length e2)
    by (rewrite <- (length_map title e1), Ht, length_map; reflexivity).
  induction fuel as [|fuel IH]; intros c i rnd n; cbn [day_loop]; [reflexivity |].
  rewrite Hl. destruct (_ && _); [| reflexivity].
  assert (Hn : option_map title (nth_error e1 i) = option_map title (nth_error e2 i))
    by (rewrite <- !nth_error_map, Ht; reflexivity).
  destruct (nth_error e1 i) as [ev1|]; destruct (nth_error e2 i) as [ev2|];
    simpl in Hn; try discriminate; [| reflexivity].
  injection Hn as Hn.
  unfold mbind, Rand_bind. cbv beta.
  destruct (getRandomTime currentDate rnd n) as [st n1].
  destruct (getRandomDuration rnd n1) as [du n2].
  rewrite IH, Hn. reflexivity.
Qed.

Lemma day_offset_loop_titles (e1 e2 : list NEvent) (today : Z) (fuel : nat) :
  map title e1 = map title e2 ->
  forall dayOffset eventIndex rnd n,
  day_offset_loop fuel e1 today dayOffset eventIndex rnd n
  = day_offset_loop fuel e2 today dayOffset eventIndex rnd n.
Proof.
  intros Ht.
  assert (Hl : length e1 = length e2)
    by (rewrite <- (length_map title e1), Ht, length_map; reflexivity).
  induction fuel as [|fuel IH]; intros d i rnd n; cbn [day_offset_loop]; [reflexivity |].
  rewrite Hl. destruct (_ && _); [| reflexivity].
  unfold mbind, Rand_bind. cbv beta zeta.
  rewrite (day_loop_titles e1 e2 _ _ Ht).
  destruct (day_loop maxEventsPerDay e2 _ 0 i rnd n) as [[dayEvents idx] n1].
  rewrite IH. reflexivity.
Qed.

Lemma generateICalendar_titles (e1 e2 : list NEvent) (today : Z) (clock : nat -> Z)
    (rnd : nat -> Q) (n : nat) :
  map title e1 = map title e2 ->
  generateICalendar e1 today clock rnd n = generateICalendar e2 today clock rnd n.
Proof.
  intros Ht. unfold generateICalendar, distributeEvents, mbind, Rand_bind. cbv beta.
  rewrite (day_offset_loop_titles e1 e2 _ _ Ht). reflexivity.
Qed.

Lemma generateICalendar_window (rnd : nat -> Q) (Hrnd : random_ok rnd)
    (events : list NEvent) (today : Z) (clock : nat -> Z) (n : nat) :
  Forall (fun ve => exists t, ve_start ve = Some t /\
                              day_of today <= day_of t < day_of today + 28)
         (cal_events (fst (generateICalendar events today clock rnd n))).
Proof.
  pose proof (day_offset_loop_days rnd Hrnd events today daysToFill 0 0 n) as [Hw _].
  unfold generateICalendar, distributeEvents, mbind, Rand_bind, mret, Rand_ret in *.
  cbv beta.
  destruct (day_offset_loop daysToFill events today 0 0 rnd n) as [out n'].
  simpl in Hw |- *. apply Forall_lookup_2. intros i ve Hi.
  rewrite list_lookup_imap in Hi.
  destruct (out !! i) as [e|] eqn:Hj; [| discriminate].
  injection Hi as <-.
  apply list_elem_of_lookup_2 in Hj. apply list_elem_of_In in Hj.
  rewrite List.Forall_forall in Hw. destruct (Hw e Hj) as [s [Hs Hd]].
  exists s. simpl. split; [exact Hs | lia].
Qed.

Lemma store_put_lookup (now : Z) (data : CalendarData) (s : Server) :
  calendarStore (store_put now data s) !! now = Some data.
Proof.
  unfold store_put, sweep. simpl. apply map_lookup_filter_Some_2.
  - apply lookup_insert_eq.
  - simpl. unfold ten_minutes. lia.
Qed.

(** C3 (amended).  The on-demand path [POST /api/generate-calendar]
    also runs the time distribution: a successful response stores, under
    its session id, the calendar [generateICalendar] builds from the
    normalized events; that calendar depends on the events' titles only
    (their start and end timestamps are discarded), and every event of
    it starts within the 28 days from the request's day. *)
Theorem on_demand_path_redistributes_times (rnd : nat -> Q) (Hrnd : random_ok rnd)
    (hasToken : bool) (provider : ProviderResult) (req : Request) (now : Z) (s : Server)
    (n : nat) (sessionId : Z) (eventCount : nat) (useGenerated : bool)
    (events : list NEvent) (s' : Server) :
  fst (generate_calendar hasToken provider req now s rnd n)
    = (Status200 sessionId eventCount useGenerated events, s') ->
  exists data m,
    calendarStore s' !! sessionId = Some data /\
    content data = fst (generateICalendar events now (fun _ => now) rnd m) /\
    (forall events' : list NEvent, map title events' = map title events ->
       content data = fst (generateICalendar events' now (fun _ => now) rnd m)) /\
    Forall (fun ve => exists t, ve_start ve = Some t /\
                                day_of now <= day_of t < day_of now + 28)
           (cal_events (content data)).
Proof.
  intros H. unfold generate_calendar in H.
  destruct (req_location req) as [location|]; [| discriminate H].
  destruct (String.eqb location EmptyString); [discriminate H |].
  destruct (fetch_decision hasToken provider location) as [evs use].
  unfold mbind, Rand_bind in H. cbv beta in H.
  destruct ((if use then generateLocationEvents (req_cityName req) (req_categories req)
                           (default 4 (req_weeks req)) now
             else mret (Normal evs)) rnd n) as [generated n1].
  destruct generated as [[| x xs] | e]; try (cbn in H; discriminate H).
  cbv zeta in H. set (ne := normalizeEvents (x :: xs)) in H.
  destruct (generateICalendar ne now (fun _ => now) rnd n1) as [ics n2] eqn:Ei.
  cbn [fst snd mret Rand_ret] in H. injection H as Hsid _ _ Hev Hs'. subst sessionId events s'.
  eexists; exists n1. split; [apply store_put_lookup |]. cbn [content].
  rewrite Ei. cbn [fst]. split; [reflexivity |]. split.
  - intros events' Ht. rewrite (generateICalendar_titles events' _ now _ rnd n1 Ht), Ei.
    reflexivity.
  - pose proof (generateICalendar_window rnd Hrnd ne now (fun _ => now) n1) as Hw.
    rewrite Ei in Hw. exact Hw.
Qed.

Lemma on_demand_path_redistributes_times_witness :
  random_ok (const_random 0) /\
  exists data m,
    calendarStore (snd (fst (generate_calendar false ProviderError berlin_request 0
                               empty_server (const_random 0) 0%nat))) !! 0 = Some data /\
    content data = fst (generateICalendar
                          (match fst (fst (generate_calendar false ProviderError berlin_request 0
                                             empty_server (const_random 0) 0%nat)) with
                           | Status200 _ _ _ evs => evs | _ => [] end)
                          0 (fun _ => 0) (const_random 0) m) /\
    (forall events' : list NEvent,
       map title events' =
       map title (match fst (fst (generate_calendar false ProviderError berlin_request 0
                                    empty_server (const_random 0) 0%nat)) with
                  | Status200 _ _ _ evs => evs | _ => [] end) ->
       content data = fst (generateICalendar events' 0 (fun _ => 0) (const_random 0) m)) /\
    Forall (fun ve => exists t, ve_start ve = Some t /\ day_of 0 <= day_of t < day_of 0 + 28)
           (cal_events (content data)).
Proof.
  assert (Hr : random_ok (const_random 0))
    by (intros i; split; vm_compute; [discriminate | reflexivity]).
  split; [exact Hr |].
  apply (on_demand_path_redistributes_times (const_random 0) Hr false ProviderError
           berlin_request 0 empty_server 0%nat 0 14 true).
  vm_compute. reflexivity.
Defined.

(** C3 (counterexample).  The timestamps of the normalized events are
    not those of the stored calendar: for the Berlin request without a
    provider the response lists events starting tomorrow at 09:00, the
    stored calendar starts its first event today at 08:00. *)
Lemma on_demand_keeps_times_counterexample :
  ~ (forall (hasToken : bool) (provider : ProviderResult) (req : Request) (now : Z)
            (s : Server) (rnd : nat -> Q) (n : nat) (sessionId : Z) (eventCount : nat)
            (useGenerated : bool) (events : list NEvent) (s' : Server),
       fst (generate_calendar hasToken provider req now s rnd n)
         = (Status200 sessionId eventCount useGenerated events, s') ->
       exists data, calendarStore s' !! sessionId = Some data /\
         map ve_start (cal_events (content data)) = map startDate events).
Proof.
  intros H.
  destruct (H false ProviderError berlin_request 0 empty_server (const_random 0) 0%nat
              _ _ _ _ _ ltac:(vm_compute; reflexivity)) as [data [Hl Hm]].
  vm_compute in Hl. injection Hl as <-. vm_compute in Hm. discriminate Hm.
Qed.

(** ** The relevance filter *)

Lemma Prim2SF_inj (x y : number) : FloatOps.Prim2SF x = FloatOps.Prim2SF y -> x = y.
Proof.
  intros H. rewrite <- (FloatAxioms.SF2Prim_Prim2SF x), <- (FloatAxioms.SF2Prim_Prim2SF y), H.
  reflexivity.
Qed.

Lemma sub_nan_l (y : number) : PrimFloat.sub PrimFloat.nan y = PrimFloat.nan.
Proof.
  apply Prim2SF_inj. rewrite FloatAxioms.sub_spec.
  destruct (FloatOps.Prim2SF y); reflexivity.
Qed.

Lemma add_nan_l (y : number) : PrimFloat.add PrimFloat.nan y = PrimFloat.nan.
Proof.
  apply Prim2SF_inj. rewrite FloatAxioms.add_spec.
  destruct (FloatOps.Prim2SF y); reflexivity.
Qed.

(** A missing latitude makes the distance [NaN], and [NaN < 1] is false. *)
Lemma distance_nan_lat (lon targetLat targetLon : number) :
  PrimFloat.ltb (distance PrimFloat.nan lon targetLat targetLon) PrimFloat.one = false.
Proof.
  unfold distance, Math_pow2. rewrite sub_nan_l.
  change (PrimFloat.mul PrimFloat.nan PrimFloat.nan) with PrimFloat.nan.
  rewrite add_nan_l. reflexivity.
Qed.

Lemma isLocal_spec (targetLat targetLon : number) (e : Event) :
  isLocal targetLat targetLon e = true <->
  exists lon lat rest, ev_location e = Some (lon :: lat :: rest) /\
    PrimFloat.ltb (distance lat lon targetLat targetLon) PrimFloat.one = true.
Proof.
  unfold isLocal. destruct (ev_location e) as [[| lon [| lat rest]]|];
    cbn [nth_num nth_error].
  1,2: rewrite distance_nan_lat;
       split; [discriminate | intros [? [? [? [H _]]]]; discriminate].
  2: split; [discriminate | intros [? [? [? [H _]]]]; discriminate].
  split.
  - intros H. exists lon, lat, rest. split; [reflexivity | exact H].
  - intros [lon' [lat' [rest' [H Hd]]]]. injection H as -> -> ->. exact Hd.
Qed.

(** C4 (amended).  With a token set and a provider answer of at least
    one event: a query without ['@'] always falls back to synthesis;
    otherwise, with [radius@lat,lon] read by [Number], the filter keeps
    exactly the events whose [location] holds [lon, lat, ...] and whose
    [distance], computed in doubles, is strictly below 1 (a [NaN]
    coordinate keeps nothing); fewer than 10 kept events make the handler
    fall back to synthesis, otherwise the kept events are used as they
    are. *)
Theorem relevance_filter_double_threshold (location : string)
    (predictHQEvents : list Event) :
  predictHQEvents <> [] ->
  match parse_target location with
  | Throw _ => fetch_decision true (ProviderOk (Some predictHQEvents)) location = ([], true)
  | Normal (targetLat, targetLon) =>
      let local := localEvents targetLat targetLon predictHQEvents in
      (forall e, In e local <->
         In e predictHQEvents /\
         exists lon lat rest, ev_location e = Some (lon :: lat :: rest) /\
           PrimFloat.ltb (distance lat lon targetLat targetLon) PrimFloat.one = true) /\
      fetch_decision true (ProviderOk (Some predictHQEvents)) location
        = (if (10 <=? length local)%nat then (local, false) else ([], true))
  end.
Proof.
  intros Hne.
  assert (Hd : fetch_decision true (ProviderOk (Some predictHQEvents)) location
               = match parse_target location with
                 | Throw _ => ([], true)
                 | Normal (targetLat, targetLon) =>
                     let local := localEvents targetLat targetLon predictHQEvents in
                     if (10 <=? length local)%nat then (local, false) else ([], true)
                 end).
  { unfold fetch_decision. cbn [default id].
    destruct predictHQEvents as [| x xs]; [congruence | reflexivity]. }
  rewrite Hd. destruct (parse_target location) as [[targetLat targetLon] | err];
    [| reflexivity].
  split; [| reflexivity].
  intros e. unfold localEvents. rewrite List.filter_In, isLocal_spec. reflexivity.
Qed.

Lemma relevance_filter_double_threshold_witness :
  [located_event (Number "13.4") (Number "52.5")] <> [] /\
  match parse_target "1km@52.52, 13.405" with
  | Throw _ => fetch_decision true (ProviderOk (Some [located_event (Number "13.4")
                                                         (Number "52.5")]))
                 "1km@52.52, 13.405" = ([], true)
  | Normal (targetLat, targetLon) =>
      let local := localEvents targetLat targetLon
                     [located_event (Number "13.4") (Number "52.5")] in
      (forall e, In e local <->
         In e [located_event (Number "13.4") (Number "52.5")] /\
         exists lon lat rest, ev_location e = Some (lon :: lat :: rest) /\
           PrimFloat.ltb (distance lat lon targetLat targetLon) PrimFloat.one = true) /\
      fetch_decision true (ProviderOk (Some [located_event (Number "13.4")
                                                (Number "52.5")])) "1km@52.52, 13.405"
        = (if (10 <=? length local)%nat then (local, false) else ([], true))
  end.
Proof.
  split; [discriminate |].
  apply relevance_filter_double_threshold. discriminate.
Defined.

(** C4 (counterexample).  An event at [lon = 0.7018954349474],
    [lat = 0.71228] lies strictly within 1 degree of the query centre
    [0,0], in exact arithmetic on the doubles themselves, but the distance
    computed in doubles rounds up to 1 and the event is dropped. *)
Lemma relevance_filter_rounding_counterexample :
  ~ (forall (location : string) (targetLat targetLon lon lat : number) (e : Event),
       parse_target location = Normal (targetLat, targetLon) ->
       ev_location e = Some [lon; lat] ->
       (exists tla tlo la lo,
          float_value targetLat = Some tla /\ float_value targetLon = Some tlo /\
          float_value lat = Some la /\ float_value lon = Some lo /\
          ((la - tla) * (la - tla) + (lo - tlo) * (lo - tlo) <= 1)%Q) ->
       In e (localEvents targetLat targetLon [e])).
Proof.
  intros H.
  specialize (H "1km@0,0"%string (Number "0") (Number "0") (Number "0.7018954349474")
                (Number "0.71228")
                (located_event (Number "0.7018954349474") (Number "0.71228"))
                ltac:(vm_compute; reflexivity) eq_refl).
  assert (Hx : exists tla tlo la lo,
             float_value (Number "0") = Some tla /\ float_value (Number "0") = Some tlo /\
             float_value (Number "0.71228") = Some la /\
             float_value (Number "0.7018954349474") = Some lo /\
             ((la - tla) * (la - tla) + (lo - tlo) * (lo - tlo) <= 1)%Q).
  { exists 0%Q, 0%Q, (3207823942583457 # 4503599627370496),
      (3161056019282163 # 4503599627370496).
    split; [vm_compute; reflexivity |]. split; [vm_compute; reflexivity |].
    split; [vm_compute; reflexivity |]. split; [vm_compute; reflexivity |].
    apply Qle_bool_iff. vm_compute. reflexivity. }
  specialize (H Hx). vm_compute in H. exact H.
Qed.

(** ** The session store *)







(** C9 (code bug).  The session id is the request's millisecond
    [Date.now()]: two stores in the same millisecond get the same id, and
    the second silently replaces the first, which is no longer reachable. *)
Theorem session_id_collision_overwrites (T : Z) (d1 d2 : CalendarData) :
  calendarStore (run empty_server [Put T d1; Put T d2]) !! T = Some d2 /\
  (forall k x, calendarStore (run empty_server [Put T d1; Put T d2]) !! k = Some x ->
               k = T /\ x = d2).
Proof.
  simpl. unfold store_put. cbn [calendarStore timers].
  split.
  - apply map_lookup_filter_Some_2; [apply lookup_insert_eq | simpl; unfold ten_minutes; lia].
  - intros k x H. apply map_lookup_filter_Some in H as [H _].
    apply lookup_insert_Some in H as [[-> ->] | [Hne H]]; [split; reflexivity |].
    apply map_lookup_filter_Some in H as [H _].
    apply lookup_insert_Some in H as [[-> _] | [_ H]]; [congruence |].
    rewrite lookup_empty in H. discriminate H.
Qed.

(* ------------------------------------------------------------------ *)
(** * Further properties of the code *)

(** ** Strings *)

Lemma split_on_cons (sep : ascii) (s : string) :
  exists p ps, split_on sep s = p :: ps.
Proof.
  induction s as [| c s [p [ps IH]]]; simpl; [eexists; eexists; reflexivity |].
  rewrite IH. destruct (Ascii.eqb c sep); eexists; eexists; reflexivity.
Qed.

Lemma split_on_no_sep (sep : ascii) (s : string) :
  count_char sep s = 0%nat -> split_on sep s = [s].
Proof.
  induction s as [| c s IH]; simpl; [reflexivity |].
  rewrite Ascii.eqb_sym.
  destruct (Ascii.eqb c sep); [discriminate |]. intros H. rewrite IH by exact H.
  reflexivity.
Qed.

Lemma split_on_app_sep (sep : ascii) (a b : string) :
  split_on sep (a ++ String sep b) = split_on sep a ++ split_on sep b.
Proof.
  induction a as [| c a IH].
  - simpl. rewrite Ascii.eqb_refl. reflexivity.
  - change (String c a ++ String sep b)%string with (String c (a ++ String sep b)).
    simpl. rewrite IH.
    destruct (split_on_cons sep a) as [p [ps Ha]]. rewrite Ha.
    destruct (Ascii.eqb c sep); reflexivity.
Qed.

Lemma count_char_app (c : ascii) (a b : string) :
  count_char c (a ++ b) = (count_char c a + count_char c b)%nat.
Proof.
  induction a as [| d a IH]; [reflexivity |].
  change (String d a ++ b)%string with (String d (a ++ b)). simpl. rewrite IH. lia.
Qed.




Lemma all_chars_app (f : ascii -> bool) (a b : string) :
  all_chars f (a ++ b) = all_chars f a && all_chars f b.
Proof.
  induction a as [| c a IH]; [reflexivity |].
  change (String c a ++ b)%string with (String c (a ++ b)). simpl. rewrite IH.
  apply andb_assoc.
Qed.

Lemma count_char_all_chars (f : ascii -> bool) (c : ascii) (s : string) :
  f c = false -> all_chars f s = true -> count_char c s = 0%nat.
Proof.
  intros Hc. induction s as [| d s IH]; simpl; [reflexivity |].
  intros H. apply andb_prop in H as [Hd Hs].
  destruct (Ascii.eqb c d) eqn:E.
  - apply Ascii.eqb_eq in E. subst. congruence.
  - rewrite IH by exact Hs. reflexivity.
Qed.

Lemma replace_non_alnum_chars (s : string) :
  all_chars filename_char (replace_non_alnum s) = true.
Proof.
  induction s as [| c s IH]; simpl; [reflexivity |].
  rewrite IH, andb_true_r. unfold filename_char.
  destruct (is_alnum c) eqn:E; [rewrite E; reflexivity | reflexivity].
Qed.

Lemma js_int_string_chars (z : Z) : all_chars filename_char (js_int_string z) = true.
Proof.
  assert (H : forall d, all_chars filename_char (NilEmpty.string_of_uint d) = true)
    by (intros d; induction d; simpl; auto).
  assert (H' : forall d, all_chars filename_char (NilZero.string_of_uint d) = true)
    by (intros d; destruct d; simpl; auto).
  unfold js_int_string, NilZero.string_of_int.
  destruct (Z.to_int z); simpl; [apply H' | apply H'].
Qed.






(** ** Loading [.env] *)



(** X2.  Lines the loader skips: a line without ['='], a line starting
    with ['='] (empty name), and a line [key=] (empty value). *)
Theorem env_line_skipped (env : Env) (line key rest : string) :
  (count_char "=" line = 0%nat -> env_line env line = env) /\
  env_line env ("=" ++ rest)%string = env /\
  (count_char "=" key = 0%nat -> env_line env (key ++ "=")%string = env).
Proof.
  split; [| split].
  - intros H. unfold env_line. rewrite (split_on_no_sep _ line H). reflexivity.
  - unfold env_line. change ("=" ++ rest)%string with (String "=" rest).
    cbn [split_on]. rewrite Ascii.eqb_refl.
    destruct (split_on "=" rest); reflexivity.
  - intros Hk. unfold env_line.
    change (key ++ "=")%string with (key ++ String "=" EmptyString)%string.
    rewrite split_on_app_sep, (split_on_no_sep _ key Hk). simpl.
    rewrite andb_false_r. reflexivity.
Qed.

Lemma env_line_skipped_witness :
  env_line ∅ "PORT 3000"%string = (∅ : Env) /\
  env_line ∅ ("=" ++ "x")%string = (∅ : Env) /\
  env_line ∅ ("PORT" ++ "=")%string = (∅ : Env).
Proof.
  destruct (env_line_skipped ∅ "PORT 3000"%string "PORT"%string "x"%string)
    as [H1 [H2 H3]].
  split; [apply H1; reflexivity | split; [exact H2 | apply H3; reflexivity]].
Defined.





(** ** The download headers *)

(** X5.  The file name of a download holds only letters, digits, ['-']
    and ['.'], whatever the stored city name, so the
    [Content-Disposition] header holds exactly the two quotes around it. *)
Theorem download_filename_safe (cityName : string) (sessionId : Z) :
  all_chars filename_char (download_filename cityName (js_int_string sessionId)) = true /\
  count_char double_quote
    (content_disposition (download_filename cityName (js_int_string sessionId))) = 2%nat.
Proof.
  assert (Hf : all_chars filename_char (download_filename cityName (js_int_string sessionId))
               = true).
  { unfold download_filename. rewrite !all_chars_app, replace_non_alnum_chars,
      js_int_string_chars. reflexivity. }
  split; [exact Hf |].
  unfold content_disposition. rewrite count_char_app.
  change (count_char double_quote "attachment; filename=") with 0%nat.
  simpl. rewrite count_char_app.
  rewrite (count_char_all_chars filename_char double_quote _ eq_refl Hf). reflexivity.
Qed.

(** ** [getEventDuration] *)





(** ** Placement of the distributed events *)

Lemma lookup_map_list {A B} (f : A -> B) (l : list A) (i : nat) :
  map f l !! i = option_map f (l !! i).
Proof.
  revert i. induction l as [| x l IH]; intros [| i]; simpl; auto.
Qed.

Section Placement.
Context (rnd : nat -> Q) (Hrnd : random_ok rnd).

Lemma getRandomTime_slot (date : Z) :
  rand_holds rnd (calendar_slot (day_of date)) (getRandomTime date).
Proof.
  unfold getRandomTime. cbv zeta.
  eapply rand_holds_bind; [apply (random_below_bounds rnd Hrnd 14); lia | intros h Hh].
  eapply rand_holds_bind; [apply (random_below_bounds rnd Hrnd 4); lia | intros m Hm].
  apply rand_holds_ret. exists (h + 8), (m * 15). cbv beta in Hh, Hm.
  split; [lia |]. split.
  - assert (Hc : m = 0 \/ m = 1 \/ m = 2 \/ m = 3) by lia.
    destruct Hc as [-> | [-> | [-> | ->]]]; simpl; auto.
  - reflexivity.
Qed.

Lemma getRandomDuration_ok :
  rand_holds rnd (fun d => exists d', d = Some d' /\ In d' durations) getRandomDuration.
Proof.
  unfold getRandomDuration.
  eapply rand_holds_bind; [apply (random_below_bounds rnd Hrnd 4); simpl; lia | intros i Hi].
  apply rand_holds_ret. cbv beta in Hi.
  assert (Hc : i = 0 \/ i = 1 \/ i = 2 \/ i = 3) by lia.
  destruct Hc as [-> | [-> | [-> | ->]]]; eexists; (split; [reflexivity | simpl; auto]).
Qed.

Lemma day_loop_placed (events : list NEvent) (currentDate : Z) (fuel : nat) :
  forall eventsForDay eventIndex,
  rand_holds rnd (fun p => Forall (placed_on (day_of currentDate)) p.1)
    (day_loop fuel events currentDate eventsForDay eventIndex).
Proof.
  induction fuel as [|fuel IH]; intros c i; cbn [day_loop].
  - apply rand_holds_ret. constructor.
  - destruct (_ && _).
    + destruct (nth_error events i) as [event|].
      * eapply rand_holds_bind; [apply getRandomTime_slot | intros st Hst].
        eapply rand_holds_bind; [apply getRandomDuration_ok | intros du [d [-> Hd]]].
        cbv zeta.
        eapply rand_holds_bind; [apply IH | intros [rest idx] Hrest].
        apply rand_holds_ret. constructor; [| exact Hrest].
        exists st, d. repeat split; auto.
      * apply rand_holds_ret. constructor.
    + apply rand_holds_ret. constructor.
Qed.

(** Day [dayOffset] takes the events [5 * dayOffset] onwards, so the
    [j]-th event of the result falls [j / 5] days after it. *)
Lemma day_offset_loop_index (events : list NEvent) (today : Z) (fuel : nat) :
  forall dayOffset eventIndex,
  (eventIndex = 5 * dayOffset \/ length events <= eventIndex)%nat ->
  rand_holds rnd
    (fun out => (length out <= length events - eventIndex)%nat /\
       forall j e, out !! j = Some e ->
         placed_on (day_of today + Z.of_nat dayOffset + Z.of_nat j / 5) e)
    (day_offset_loop fuel events today dayOffset eventIndex).
Proof.
  induction fuel as [|fuel IH]; intros d i Hi; cbn [day_offset_loop].
  - apply rand_holds_ret. split; [simpl; lia | intros j e H; discriminate].
  - destruct ((d <? daysToFill)%nat && (i <? length events)%nat) eqn:E.
    + apply andb_prop in E as [_ E2]. apply Nat.ltb_lt in E2.
      assert (Hi5 : i = (5 * d)%nat) by (destruct Hi; [assumption | lia]).
      cbv zeta.
      eapply rand_holds_bind.
      { apply (rand_holds_and rnd); [apply day_loop_shape | apply day_loop_placed]. }
      intros [dayEvents idx] [[H1 [H2 _]] H3]. cbn [fst snd] in H1, H2, H3.
      unfold maxEventsPerDay in H2.
      set (L := length dayEvents) in *.
      assert (HL : L = Nat.min 5 (length events - i)) by lia.
      eapply rand_holds_bind.
      { apply IH. destruct (Nat.le_gt_cases 5 (length events - i)) as [Hge | Hlt].
        - left. lia.
        - right. lia. }
      intros rest [Hlen Hrest].
      apply rand_holds_ret. split; [rewrite length_app; lia |].
      intros j e Hj.
      destruct (Nat.lt_ge_cases j L) as [HjL | HjL].
      * rewrite lookup_app_l in Hj by exact HjL.
        pose proof (Forall_lookup_1 _ _ _ _ H3 Hj) as He.
        rewrite day_of_add_days in He.
        replace (Z.of_nat j / 5) with 0 by (symmetry; apply Z.div_small; lia).
        rewrite Z.add_0_r. exact He.
      * rewrite lookup_app_r in Hj by exact HjL.
        destruct (Nat.le_gt_cases 5 (length events - i)) as [Hge | Hlt].
        -- assert (HL5 : L = 5%nat) by lia.
           pose proof (Hrest _ _ Hj) as He.
           replace (Z.of_nat j / 5) with (Z.of_nat (j - L) / 5 + 1).
           ++ replace (day_of today + Z.of_nat d + (Z.of_nat (j - L) / 5 + 1))
                with (day_of today + Z.of_nat (S d) + Z.of_nat (j - L) / 5) by lia.
              exact He.
           ++ rewrite HL5. rewrite <- Z.div_add by lia. f_equal. lia.
        -- assert (Hr : rest = []) by (destruct rest; [reflexivity | simpl in Hlen; lia]).
           subst rest. rewrite lookup_nil in Hj. discriminate.
    + apply rand_holds_ret. split; [simpl; lia | intros j e H; discriminate].
Qed.

End Placement.

Lemma calendar_lookup_placed (rnd : nat -> Q) (Hrnd : random_ok rnd)
    (events : list NEvent) (today : Z) (clock : nat -> Z) (n i : nat) (ve : VEvent) :
  cal_events (fst (generateICalendar events today clock rnd n)) !! i = Some ve ->
  exists s d, ve_start ve = Some s /\ calendar_slot (day_of today + Z.of_nat i / 5) s /\
              In d durations /\ ve_end ve = Some (s + d * ms_per_min).
Proof.
  pose proof (day_offset_loop_index rnd Hrnd events today daysToFill 0 0
                (or_introl eq_refl) n) as [_ Hp].
  unfold generateICalendar, distributeEvents, mbind, Rand_bind, mret, Rand_ret in *.
  cbv beta. destruct (day_offset_loop daysToFill events today 0 0 rnd n) as [out n'].
  cbn [fst cal_events] in Hp |- *. intros Hi.
  rewrite list_lookup_imap in Hi.
  destruct (out !! i) as [e|] eqn:Hj; [| discriminate].
  injection Hi as <-. cbn [ve_start ve_end].
  pose proof (Hp i e Hj) as He. rewrite Z.add_0_r in He. exact He.
Qed.

Lemma calendar_lookup_content (rnd : nat -> Q)
    (events : list NEvent) (today : Z) (clock : nat -> Z) (n i : nat) (ve : VEvent) :
  cal_events (fst (generateICalendar events today clock rnd n)) !! i = Some ve ->
  (exists e, events !! i = Some e /\ ve_summary ve = title e) /\
  ve_description ve = "Event from PredictHQ"%string.
Proof.
  pose proof (day_offset_loop_shape rnd events today daysToFill 0 0 n) as Hs.
  unfold generateICalendar, distributeEvents, mbind, Rand_bind, mret, Rand_ret in *.
  cbv beta. destruct (day_offset_loop daysToFill events today 0 0 rnd n) as [out n'].
  cbn [fst cal_events] in Hs |- *. intros Hi.
  rewrite list_lookup_imap in Hi.
  destruct (out !! i) as [e|] eqn:Hj; [| discriminate].
  injection Hi as <-. cbn [ve_summary ve_description].
  split; [| reflexivity].
  assert (Ht : map title out !! i = Some (title e)) by (rewrite lookup_map_list, Hj; reflexivity).
  rewrite Hs, skipn_O, lookup_take in Ht.
  destruct (decide _); [| discriminate].
  rewrite lookup_map_list in Ht.
  destruct (events !! i) as [e0|]; [| discriminate].
  injection Ht as Ht. exists e0. split; [reflexivity | symmetry; exact Ht].
Qed.

(** X8.  The [i]-th event block of a calendar built by
    [generateICalendar] starts on the [i / 5]-th day after today, at an
    hour from 8 to 21 and a minute among 0, 15, 30 and 45, and ends 60,
    90, 120 or 180 minutes after its start. *)
Theorem calendar_event_timing (rnd : nat -> Q) (Hrnd : random_ok rnd)
    (events : list NEvent) (today : Z) (clock : nat -> Z) (n i : nat) (ve : VEvent) :
  cal_events (fst (generateICalendar events today clock rnd n)) !! i = Some ve ->
  exists s d, ve_start ve = Some s /\ calendar_slot (day_of today + Z.of_nat i / 5) s /\
              In d durations /\ ve_end ve = Some (s + d * ms_per_min).
Proof. apply calendar_lookup_placed. exact Hrnd. Qed.

Lemma calendar_event_timing_witness :
  exists s d,
    ve_start (mkVEvent (Some 28800000) (Some 32400000) "b" "Event from PredictHQ")
    = Some s /\
    calendar_slot (day_of 0 + Z.of_nat 1 / 5) s /\ In d durations /\
    ve_end (mkVEvent (Some 28800000) (Some 32400000) "b" "Event from PredictHQ")
    = Some (s + d * ms_per_min).
Proof.
  apply (calendar_event_timing (const_random 0)
           (ltac:(intros k; split; vm_compute; [discriminate | reflexivity]))
           [mkNEvent "a" None None; mkNEvent "b" None None] 0 (fun _ => 7) 0%nat 1%nat).
  vm_compute. reflexivity.
Defined.

(** X9.  The [i]-th event block of a calendar built by
    [generateICalendar] has the title of the [i]-th input event as its
    summary and the fixed description. *)
Theorem calendar_event_content (rnd : nat -> Q)
    (events : list NEvent) (today : Z) (clock : nat -> Z) (n i : nat) (ve : VEvent) :
  cal_events (fst (generateICalendar events today clock rnd n)) !! i = Some ve ->
  (exists e, events !! i = Some e /\ ve_summary ve = title e) /\
  ve_description ve = "Event from PredictHQ"%string.
Proof. apply calendar_lookup_content. Qed.

Lemma calendar_event_content_witness :
  (exists e, [mkNEvent "a" None None; mkNEvent "b" (Some 5) (Some 6)] !! 1%nat = Some e /\
             "b"%string = title e) /\
  "Event from PredictHQ"%string = "Event from PredictHQ"%string.
Proof.
  apply (calendar_event_content (const_random 0)
           [mkNEvent "a" None None; mkNEvent "b" (Some 5) (Some 6)] 0 (fun _ => 7)
           0%nat 1%nat (mkVEvent (Some 28800000) (Some 32400000) "b" "Event from PredictHQ")).
  vm_compute. reflexivity.
Defined.

(** ** The batch job *)

Lemma calendar_length (rnd : nat -> Q)
    (events : list NEvent) (today : Z) (clock : nat -> Z) (n : nat) :
  length (cal_events (fst (generateICalendar events today clock rnd n)))
  = Nat.min 140 (length events).
Proof.
  pose proof (day_offset_loop_shape rnd events today daysToFill 0 0 n) as Hs.
  unfold generateICalendar, distributeEvents, mbind, Rand_bind, mret, Rand_ret in *.
  cbv beta. destruct (day_offset_loop daysToFill events today 0 0 rnd n) as [out n'].
  cbn [fst cal_events] in Hs |- *.
  rewrite length_imap, <- (length_map title out), Hs, skipn_O, length_take, length_map.
  reflexivity.
Qed.

(** X10.  When the provider call of the batch job throws, the calendar
    it writes holds exactly one event: the [Sample Event], redistributed like any other event to a
    drawn time of the run's day and a drawn duration (its own two-hour
    end is discarded). *)
Theorem fetch_error_single_sample (rnd : nat -> Q) (Hrnd : random_ok rnd)
    (now : Z) (clock : nat -> Z) (n : nat) :
  exists ve,
    cal_events (fst (fetchPredictHQEvents ProviderError now clock rnd n)) = [ve] /\
    ve_summary ve = "Sample Event"%string /\
    exists s d, ve_start ve = Some s /\ calendar_slot (day_of now) s /\
                In d durations /\ ve_end ve = Some (s + d * ms_per_min).
Proof.
  unfold fetchPredictHQEvents.
  pose proof (calendar_length rnd [fallback_sample_event now] now clock n) as Hl.
  destruct (cal_events (fst (generateICalendar [fallback_sample_event now] now clock rnd n)))
    as [| ve [| ve' rest]] eqn:E; simpl in Hl; try lia.
  exists ve. split; [reflexivity |].
  assert (H0 : cal_events (fst (generateICalendar [fallback_sample_event now] now clock rnd n))
               !! 0%nat = Some ve) by (rewrite E; reflexivity).
  destruct (calendar_lookup_content _ _ _ _ _ _ _ H0) as [[e [He Hs]] _].
  injection He as <-. split; [exact Hs |].
  destruct (calendar_lookup_placed _ Hrnd _ _ _ _ _ _ H0) as [s [d Hp]].
  exists s, d. rewrite Zdiv_0_l, Z.add_0_r in Hp. exact Hp.
Qed.

Lemma fetch_error_single_sample_witness :
  exists ve,
    cal_events (fst (fetchPredictHQEvents ProviderError 1000 (fun _ => 1000)
                       (const_random (1 # 2)) 0%nat)) = [ve] /\
    ve_summary ve = "Sample Event"%string /\
    exists s d, ve_start ve = Some s /\ calendar_slot (day_of 1000) s /\
                In d durations /\ ve_end ve = Some (s + d * ms_per_min).
Proof.
  apply (fetch_error_single_sample (const_random (1 # 2))).
  intros k. split; vm_compute; [discriminate | reflexivity].
Defined.

(** X11.  When the provider answers without results (no [results]
    field, or an empty array), the batch job writes a calendar with no
    event at all: the sample event is used only when the call throws. *)
Theorem fetch_empty_results_empty_calendar (rnd : nat -> Q)
    (results : option (list Event)) (now : Z) (clock : nat -> Z) (n : nat) :
  (results = None \/ results = Some []) ->
  cal_events (fst (fetchPredictHQEvents (ProviderOk results) now clock rnd n)) = [].
Proof.
  intros Hr. unfold fetchPredictHQEvents.
  pose proof (calendar_length rnd (normalizeEvents (default [] results)) now clock n) as Hl.
  destruct Hr as [-> | ->]; cbn [default normalizeEvents map length] in Hl |- *;
    apply length_zero_iff_nil; exact Hl.
Qed.

Lemma fetch_empty_results_empty_calendar_witness :
  cal_events (fst (fetchPredictHQEvents (ProviderOk (Some [])) 5 (fun _ => 5)
                     (const_random 0) 0%nat)) = [].
Proof.
  apply (fetch_empty_results_empty_calendar (const_random 0) (Some [])). right. reflexivity.
Defined.

(** ** The fallback synthesizer, in detail *)

Lemma date_of_number_le (z : Z) (x : Q) : (x <= inject_Z z)%Q -> date_of_number x <= z.
Proof.
  intros H. unfold date_of_number.
  assert (Hc : Qceiling x <= z)
    by (rewrite <- (Qceiling_Z z); apply Qceiling_resp_le; exact H).
  destruct (Qle_bool 0 x); [| exact Hc].
  pose proof (Qle_floor_ceiling x) as Hf. rewrite <- Zle_Qle in Hf. lia.
Qed.

Lemma concat_length_bounds {A} (a b : nat) (ls : list (list A)) :
  Forall (fun l => a <= length l <= b)%nat ls ->
  (a * length ls <= length (concat ls) <= b * length ls)%nat.
Proof.
  induction 1 as [| l ls Hl _ IH]; simpl; [lia |].
  rewrite length_app. lia.
Qed.

Section SynthesizerDetail.
Context (rnd : nat -> Q) (Hrnd : random_ok rnd).

Lemma rand_holds_repeatM_length {A} (k : nat) (m : Rand A) :
  rand_holds rnd (fun l => length l = k) (repeatM k m).
Proof.
  induction k as [|k IH]; simpl.
  - apply rand_holds_ret. reflexivity.
  - eapply rand_holds_bind; [apply rand_holds_true | intros y _].
    eapply rand_holds_bind; [apply IH | intros ys Hys].
    apply rand_holds_ret. simpl. congruence.
Qed.

Lemma rand_holds_mapM_in {A B} (P : B -> Prop) (f : A -> Rand B) (l : list A) :
  (forall x, In x l -> rand_holds rnd P (f x)) ->
  rand_holds rnd (fun ys => length ys = length l /\ Forall P ys) (mapM f l).
Proof.
  induction l as [|x l IH]; intros Hf; simpl.
  - apply rand_holds_ret. split; [reflexivity | constructor].
  - eapply rand_holds_bind; [apply Hf; left; reflexivity | intros y Hy].
    eapply rand_holds_bind; [apply IH; intros x' Hx'; apply Hf; right; exact Hx' |].
    intros ys [Hl Hys]. apply rand_holds_ret. simpl. split; [congruence |].
    constructor; assumption.
Qed.

Lemma gen_event_detail (cityName : string) (categoryList : list string) (eventDate : Z) :
  categoryList <> [] ->
  rand_holds rnd (synth_event_detail categoryList eventDate)
    (gen_event cityName categoryList eventDate).
Proof.
  intros Hne. unfold gen_event. cbv zeta.
  assert (Hlen : 0 < Z.of_nat (length categoryList))
    by (destruct categoryList; [congruence | simpl; lia]).
  eapply rand_holds_bind; [apply (random_below_bounds rnd Hrnd _ Hlen) | intros ci Hci].
  eapply rand_holds_bind; [apply rand_holds_true | intros ti _].
  eapply rand_holds_bind; [apply (random_below_bounds rnd Hrnd 12); lia | intros h Hh].
  eapply rand_holds_bind; [apply rand_holds_true | intros rm _].
  eapply rand_holds_bind; [apply (rand_holds_random rnd Hrnd) | intros rd [Hrd0 Hrd1]].
  apply rand_holds_ret. cbv beta in Hci, Hh.
  split.
  - unfold nth_z. destruct (ci <? 0) eqn:E; [apply Z.ltb_lt in E; lia |].
    destruct (nth_error categoryList (Z.to_nat ci)) as [c|] eqn:Ec.
    + exists c. split; [reflexivity | eapply nth_error_In; exact Ec].
    + apply nth_error_None in Ec. lia.
  - set (m := if Qltb (1 # 2) rm then 0 else 30).
    set (s := set_hours eventDate (9 + h) m).
    exists s, (date_of_number (inject_Z s + (1 + rd * 3) * 60 * 60 * 1000)%Q), (9 + h), m.
    split; [reflexivity |]. split; [reflexivity |]. split; [lia |].
    split; [unfold m; destruct (Qltb _ _); auto |].
    split; [reflexivity |]. split.
    + apply date_of_number_ge. rewrite inject_Z_plus.
      replace (inject_Z ms_per_hour) with (3600000 # 1) by reflexivity. lra.
    + apply date_of_number_le. rewrite inject_Z_plus, inject_Z_mult.
      replace (inject_Z ms_per_hour) with (3600000 # 1) by reflexivity.
      replace (inject_Z 4) with (4 # 1) by reflexivity. lra.
Qed.

Lemma gen_day_detail (cityName : string) (categoryList : list string) (startDate : Z)
    (week day : nat) :
  categoryList <> [] ->
  rand_holds rnd
    (fun l => (2 <= length l <= 3)%nat /\
       Forall (synth_event_detail categoryList
                 (add_days startDate (Z.of_nat week * 7 + Z.of_nat day))) l)
    (gen_day cityName categoryList startDate week day).
Proof.
  intros Hne. unfold gen_day. cbv zeta.
  eapply rand_holds_bind; [apply (random_below_bounds rnd Hrnd 2); lia | intros k Hk].
  apply (rand_holds_and rnd).
  - eapply rand_holds_weaken; [| apply rand_holds_repeatM_length].
    cbv beta in Hk |- *. intros l ->. lia.
  - apply rand_holds_repeatM, gen_event_detail, Hne.
Qed.

Lemma gen_week_detail (cityName : string) (categoryList : list string) (startDate : Z)
    (week : nat) :
  categoryList <> [] ->
  rand_holds rnd
    (fun l => (14 <= length l <= 21)%nat /\
       Forall (fun e => exists eventDate,
                 day_of startDate + 7 * Z.of_nat week <= day_of eventDate
                   <= day_of startDate + 7 * Z.of_nat week + 6 /\
                 synth_event_detail categoryList eventDate e) l)
    (gen_week cityName categoryList startDate week).
Proof.
  intros Hne. unfold gen_week.
  eapply rand_holds_bind.
  { apply (rand_holds_mapM_in
             (fun l => (2 <= length l <= 3)%nat /\
                Forall (fun e => exists eventDate,
                          day_of startDate + 7 * Z.of_nat week <= day_of eventDate
                            <= day_of startDate + 7 * Z.of_nat week + 6 /\
                          synth_event_detail categoryList eventDate e) l)).
    intros day Hday. apply in_seq in Hday.
    eapply rand_holds_weaken; [| apply gen_day_detail, Hne].
    intros l [Hl Hf]. split; [exact Hl |].
    eapply Forall_impl; [exact Hf |]. intros e He.
    eexists; split; [| exact He]. rewrite day_of_add_days. lia. }
  intros days [Hlen Hdays]. apply rand_holds_ret. split.
  - pose proof (concat_length_bounds 2 3 days) as Hb.
    rewrite length_seq in Hlen. rewrite Hlen in Hb.
    apply Hb. eapply Forall_impl; [exact Hdays | intros l [Hl _]; exact Hl].
  - apply Forall_concat. eapply Forall_impl; [exact Hdays | intros l [_ Hf]; exact Hf].
Qed.

Lemma generateLocationEvents_detail (cityName : option string) (categories : string)
    (weeks now : Z) :
  rand_holds rnd
    (fun c => match c with
              | Normal evs =>
                  (Nat.min 140 (14 * Z.to_nat weeks) <= length evs
                     <= Nat.min 140 (21 * Z.to_nat weeks))%nat /\
                  Forall (fun e => exists eventDate,
                            day_of now < day_of eventDate <= day_of now + 7 * weeks /\
                            synth_event_detail (split_comma categories) eventDate e) evs
              | Throw _ => False
              end)
    (generateLocationEvents cityName (Some categories) weeks now).
Proof.
  assert (Hne : split_comma categories <> [])
    by (unfold split_comma; destruct (split_on_cons "," categories) as [p [ps ->]];
        discriminate).
  unfold generateLocationEvents. cbv zeta.
  eapply rand_holds_bind.
  { apply (rand_holds_mapM_in
             (fun l => (14 <= length l <= 21)%nat /\
                Forall (fun e => exists eventDate,
                          day_of now < day_of eventDate <= day_of now + 7 * weeks /\
                          synth_event_detail (split_comma categories) eventDate e) l)).
    intros week Hweek. apply in_seq in Hweek.
    eapply rand_holds_weaken; [| apply gen_week_detail, Hne].
    intros l [Hl Hf]. split; [exact Hl |].
    eapply Forall_impl; [exact Hf |]. intros e [d [Hd He]].
    exists d. split; [| exact He]. rewrite day_of_add_days in Hd. lia. }
  intros weeksEvents [Hlen Hw]. apply rand_holds_ret. split.
  - pose proof (concat_length_bounds 14 21 weeksEvents) as Hb.
    rewrite length_seq in Hlen. rewrite Hlen in Hb.
    rewrite length_take.
    assert (H : (14 * Z.to_nat weeks <= length (concat weeksEvents)
                 <= 21 * Z.to_nat weeks)%nat)
      by (apply Hb; eapply Forall_impl; [exact Hw | intros l [Hl _]; exact Hl]).
    lia.
  - apply Forall_take, Forall_concat.
    eapply Forall_impl; [exact Hw | intros l [_ Hf]; exact Hf].
Qed.

End SynthesizerDetail.

(** X12.  For a category string, [generateLocationEvents] makes 2 or 3
    events for each of the [7 * weeks] days and keeps the first 140: it
    returns between [min 140 (14 * weeks)] and [min 140 (21 * weeks)]
    events, and none when [weeks <= 0]. *)
Theorem synthesized_count_bounds (rnd : nat -> Q) (Hrnd : random_ok rnd)
    (cityName : option string) (categories : string) (weeks now : Z) (n : nat) :
  match fst (generateLocationEvents cityName (Some categories) weeks now rnd n) with
  | Normal evs => (Nat.min 140 (14 * Z.to_nat weeks) <= length evs
                     <= Nat.min 140 (21 * Z.to_nat weeks))%nat
  | Throw _ => False
  end.
Proof.
  pose proof (generateLocationEvents_detail rnd Hrnd cityName categories weeks now n) as H.
  destruct (fst (generateLocationEvents cityName (Some categories) weeks now rnd n));
    [apply H | exact H].
Qed.

Lemma synthesized_count_bounds_witness :
  match fst (generateLocationEvents (Some "Berlin"%string) (Some "sports"%string) 3 0
               (const_random (9 # 10)) 0%nat) with
  | Normal evs => (Nat.min 140 (14 * Z.to_nat 3) <= length evs
                     <= Nat.min 140 (21 * Z.to_nat 3))%nat
  | Throw _ => False
  end.
Proof.
  apply synthesized_count_bounds.
  intros i. split; vm_compute; [discriminate | reflexivity].
Defined.

(** X13.  Every event [generateLocationEvents] synthesizes for a
    category string has a category taken from the comma-split list,
    falls on a day from tomorrow to [7 * weeks] days ahead, starts at
    an hour from 9 to 20 on the full or half hour, and lasts from one to
    four hours. *)
Theorem synthesized_event_detail (rnd : nat -> Q) (Hrnd : random_ok rnd)
    (cityName : option string) (categories : string) (weeks now : Z) (n : nat) :
  match fst (generateLocationEvents cityName (Some categories) weeks now rnd n) with
  | Normal evs =>
      Forall (fun e => exists eventDate,
                day_of now < day_of eventDate <= day_of now + 7 * weeks /\
                synth_event_detail (split_comma categories) eventDate e) evs
  | Throw _ => False
  end.
Proof.
  pose proof (generateLocationEvents_detail rnd Hrnd cityName categories weeks now n) as H.
  destruct (fst (generateLocationEvents cityName (Some categories) weeks now rnd n));
    [apply H | exact H].
Qed.

Lemma synthesized_event_detail_witness :
  match fst (generateLocationEvents (Some "Berlin"%string) (Some "sports,concerts"%string)
               2 0 (const_random (1 # 3)) 0%nat) with
  | Normal evs =>
      Forall (fun e => exists eventDate,
                day_of 0 < day_of eventDate <= day_of 0 + 7 * 2 /\
                synth_event_detail (split_comma "sports,concerts") eventDate e) evs
  | Throw _ => False
  end.
Proof.
  apply synthesized_event_detail.
  intros i. split; vm_compute; [discriminate | reflexivity].
Defined.

(** ** Outcomes of [POST /api/generate-calendar] *)

Lemma fetch_decision_fallback (hasToken : bool) (provider : ProviderResult)
    (location : string) :
  (hasToken = false \/ provider = ProviderError) ->
  fetch_decision hasToken provider location = ([], true).
Proof.
  intros [-> | ->]; unfold fetch_decision; [reflexivity |].
  destruct hasToken; reflexivity.
Qed.

Lemma fetch_decision_provider (hasToken : bool) (provider : ProviderResult)
    (location : string) (events : list Event) :
  fetch_decision hasToken provider location = (events, false) ->
  hasToken = true /\ (10 <= length events)%nat /\
  exists results, provider = ProviderOk (Some results) /\ results <> [].
Proof.
  unfold fetch_decision. intros H. destruct hasToken; [| simpl in H; discriminate H].
  destruct provider as [| [results|]]; [discriminate H | | ].
  - cbn [default id] in H. cbv zeta in H. destruct (0 <? length results)%nat eqn:E; [| simpl in H; discriminate H].
    destruct (parse_target location) as [[tLat tLon] | e]; [| simpl in H; discriminate H].
    destruct (10 <=? length (localEvents tLat tLon results))%nat eqn:E2; [| simpl in H; discriminate H].
    injection H as <-. apply Nat.leb_le in E2. apply Nat.ltb_lt in E.
    split; [reflexivity |]. split; [exact E2 |].
    exists results. split; [reflexivity | destruct results; [simpl in E; lia | discriminate]].
  - cbn [default id] in H. simpl in H. discriminate H.
Qed.

(** X14.  [POST /api/generate-calendar] answers 400 exactly when the
    body has no [location] or an empty one. *)
Theorem generate_calendar_400_iff (rnd : nat -> Q) (hasToken : bool)
    (provider : ProviderResult) (req : Request) (now : Z) (s : Server) (n : nat) :
  (exists e, fst (fst (generate_calendar hasToken provider req now s rnd n)) = Status400 e)
  <-> (req_location req = None \/ req_location req = Some EmptyString).
Proof.
  unfold generate_calendar.
  destruct (req_location req) as [location|].
  - destruct (String.eqb location EmptyString) eqn:El.
    + apply String.eqb_eq in El. subst location. cbn.
      split; [intros _; right; reflexivity | intros _; eexists; reflexivity].
    + split.
      * intros [e H].
        destruct (fetch_decision hasToken provider location) as [evs use].
        unfold mbind, Rand_bind in H. cbv beta in H.
        destruct ((if use then generateLocationEvents (req_cityName req) (req_categories req)
                                 (default 4 (req_weeks req)) now
                   else mret (Normal evs)) rnd n) as [generated n1].
        destruct generated as [[| x xs] | err]; [cbn in H; discriminate H | |
                                                 cbn in H; discriminate H].
        cbv zeta in H.
        destruct (generateICalendar (normalizeEvents (x :: xs)) now (fun _ => now) rnd n1)
          as [ics n2].
        cbn in H. discriminate H.
      * intros [H | H]; [discriminate H |]. injection H as ->. discriminate El.
  - cbn. split; [intros _; left; reflexivity | intros _; eexists; reflexivity].
Qed.

Lemma generate_calendar_400_iff_witness :
  exists e, fst (fst (generate_calendar false ProviderError
                        (mkRequest (Some EmptyString) (Some "festivals"%string) None None)
                        0 empty_server (const_random 0) 0%nat)) = Status400 e.
Proof.
  apply (generate_calendar_400_iff (const_random 0)). right. reflexivity.
Defined.


(** X16.  A 200 response that does not use synthesized events only
    occurs with a token set and a provider answering a nonempty result
    list, and it always has at least 10 events. *)
Theorem generate_calendar_provider_path (rnd : nat -> Q) (hasToken : bool)
    (provider : ProviderResult) (req : Request) (now : Z) (s : Server) (n : nat) :
  match fst (fst (generate_calendar hasToken provider req now s rnd n)) with
  | Status200 _ cnt false _ =>
      hasToken = true /\ (10 <= cnt)%nat /\
      exists results, provider = ProviderOk (Some results) /\ results <> []
  | _ => True
  end.
Proof.
  unfold generate_calendar.
  destruct (req_location req) as [location|]; [| exact I].
  destruct (String.eqb location EmptyString); [exact I |].
  destruct (fetch_decision hasToken provider location) as [evs use] eqn:Ed.
  unfold mbind, Rand_bind. cbv beta.
  destruct use.
  - destruct (generateLocationEvents (req_cityName req) (req_categories req)
                (default 4 (req_weeks req)) now rnd n) as [generated n1].
    destruct generated as [[| x xs] | err]; [exact I | | exact I].
    cbv zeta. destruct (generateICalendar _ now (fun _ => now) rnd n1) as [ics n2].
    exact I.
  - destruct (fetch_decision_provider _ _ _ _ Ed) as [Ht [Hl Hp]].
    cbn [mret Rand_ret].
    destruct evs as [| x xs]; [exact I |]. cbv zeta.
    destruct (generateICalendar _ now (fun _ => now) rnd n) as [ics n2].
    cbn [fst]. split; [exact Ht |]. split; [| exact Hp].
    unfold normalizeEvents. rewrite length_map. exact Hl.
Qed.

(** X17.  Without a token, or when the provider call throws, a request
    with a location and categories but [weeks <= 0] gets the 404
    [No events found]: the synthesizer makes no event. *)
Theorem generate_calendar_no_weeks_404 (rnd : nat -> Q) (hasToken : bool)
    (provider : ProviderResult) (req : Request) (now : Z) (s : Server) (n : nat)
    (location categories : string) :
  (hasToken = false \/ provider = ProviderError) ->
  req_location req = Some location -> location <> EmptyString ->
  req_categories req = Some categories -> default 4 (req_weeks req) <= 0 ->
  fst (generate_calendar hasToken provider req now s rnd n)
  = (Status404 "No events found for the specified criteria", s).
Proof.
  intros Hf Hl Hne Hc Hw. unfold generate_calendar. rewrite Hl.
  destruct (String.eqb location EmptyString) eqn:E;
    [apply String.eqb_eq in E; contradiction |].
  rewrite (fetch_decision_fallback _ _ location Hf). rewrite Hc.
  unfold generateLocationEvents.
  replace (Z.to_nat (default 4%Z (req_weeks req))) with 0%nat by lia.
  reflexivity.
Qed.

Lemma generate_calendar_no_weeks_404_witness :
  fst (generate_calendar false ProviderError
         (mkRequest (Some "50km@52.52,13.40"%string) (Some "sports"%string) (Some 0)
                    (Some "Berlin"%string))
         0 empty_server (const_random 0) 0%nat)
  = (Status404 "No events found for the specified criteria", empty_server).
Proof.
  apply (generate_calendar_no_weeks_404 _ _ _ _ _ _ _ "50km@52.52,13.40" "sports");
    [left | | | |]; try reflexivity; try discriminate; simpl; lia.
Defined.

(** X18.  Without a token, or when the provider call throws, a request
    with a location, categories and [weeks >= 1] (4 when absent) gets a
    200 answer with synthesized events, between [min 140 (14 * weeks)]
    and [min 140 (21 * weeks)] of them. *)
Theorem generate_calendar_synthesized_200 (rnd : nat -> Q) (Hrnd : random_ok rnd)
    (hasToken : bool) (provider : ProviderResult) (req : Request) (now : Z) (s : Server)
    (n : nat) (location categories : string) :
  (hasToken = false \/ provider = ProviderError) ->
  req_location req = Some location -> location <> EmptyString ->
  req_categories req = Some categories -> 1 <= default 4 (req_weeks req) ->
  exists cnt evs,
    fst (fst (generate_calendar hasToken provider req now s rnd n))
      = Status200 now cnt true evs /\
    (Nat.min 140 (14 * Z.to_nat (default 4%Z (req_weeks req))) <= cnt
       <= Nat.min 140 (21 * Z.to_nat (default 4%Z (req_weeks req))))%nat.
Proof.
  intros Hf Hl Hne Hc Hw. unfold generate_calendar. rewrite Hl.
  destruct (String.eqb location EmptyString) eqn:E;
    [apply String.eqb_eq in E; contradiction |].
  rewrite (fetch_decision_fallback _ _ location Hf). rewrite Hc.
  unfold mbind at 1, Rand_bind at 1. cbv beta.
  pose proof (generateLocationEvents_detail rnd Hrnd (req_cityName req) categories
                (default 4 (req_weeks req)) now n) as H.
  destruct (generateLocationEvents (req_cityName req) (Some categories)
              (default 4 (req_weeks req)) now rnd n) as [generated n1].
  cbn [fst] in H. destruct generated as [evs | err]; [| contradiction].
  destruct H as [Hlen _].
  destruct evs as [| x xs]; [cbn [length] in Hlen; lia |].
  cbv zeta. unfold mbind, Rand_bind. cbv beta.
  destruct (generateICalendar _ now (fun _ => now) rnd n1) as [ics n2].
  cbn [fst mret Rand_ret]. eexists; eexists. split; [reflexivity |].
  unfold normalizeEvents. rewrite length_map. exact Hlen.
Qed.

Lemma generate_calendar_synthesized_200_witness :
  exists cnt evs,
    fst (fst (generate_calendar false ProviderError berlin_request 0 empty_server
                (const_random (1 # 2)) 0%nat))
      = Status200 0 cnt true evs /\
    (Nat.min 140 (14 * Z.to_nat (default 4%Z (req_weeks berlin_request))) <= cnt
       <= Nat.min 140 (21 * Z.to_nat (default 4%Z (req_weeks berlin_request))))%nat.
Proof.
  apply (generate_calendar_synthesized_200 (const_random (1 # 2))
           (ltac:(intros i; split; vm_compute; [discriminate | reflexivity]))
           _ _ _ _ _ _ "50km@52.5200,13.4050" "festivals");
    [left | | | |]; try reflexivity; try discriminate; simpl; lia.
Defined.

(** ** Grouping by day in the frontend *)

Definition start_le (a b : NEvent) : Prop := fe_start a <= fe_start b.

Lemma insert_by_start_perm (e : NEvent) (l : list NEvent) :
  Permutation (insert_by_start e l) (e :: l).
Proof.
  induction l as [| y ys IH]; simpl; [reflexivity |].
  destruct (fe_start y <? fe_start e); [| reflexivity].
  rewrite IH. apply perm_swap.
Qed.

Lemma sort_by_start_perm (l : list NEvent) : Permutation (sort_by_start l) l.
Proof.
  induction l as [| x xs IH]; simpl; [reflexivity |].
  rewrite insert_by_start_perm, IH. reflexivity.
Qed.

Lemma insert_by_start_hdrel (y e : NEvent) (l : list NEvent) :
  HdRel start_le y l -> fe_start y <= fe_start e -> HdRel start_le y (insert_by_start e l).
Proof.
  intros Hh Hle. destruct l as [| z zs]; simpl.
  - constructor. exact Hle.
  - destruct (fe_start z <? fe_start e); constructor; [inversion Hh; assumption | exact Hle].
Qed.

Lemma insert_by_start_sorted (e : NEvent) (l : list NEvent) :
  Sorted start_le l -> Sorted start_le (insert_by_start e l).
Proof.
  induction 1 as [| y ys Hs IH Hh]; simpl.
  - repeat constructor.
  - destruct (fe_start y <? fe_start e) eqn:E.
    + apply Z.ltb_lt in E. constructor; [exact IH |].
      apply insert_by_start_hdrel; [exact Hh | lia].
    + apply Z.ltb_ge in E. constructor; [constructor; assumption |].
      constructor. unfold start_le. lia.
Qed.

Lemma sort_by_start_sorted (l : list NEvent) : Sorted start_le (sort_by_start l).
Proof.
  induction l as [| x xs IH]; simpl; [constructor |].
  apply insert_by_start_sorted, IH.
Qed.

Lemma insert_by_start_filter (P : NEvent -> bool) (t : Z) (e : NEvent) (l : list NEvent) :
  (forall x, P x = true -> fe_start x = t) ->
  List.filter P (insert_by_start e l) = List.filter P (e :: l).
Proof.
  intros HP. induction l as [| y ys IH]; simpl; [reflexivity |].
  destruct (fe_start y <? fe_start e) eqn:E; [| reflexivity].
  apply Z.ltb_lt in E. simpl. rewrite IH. simpl.
  destruct (P e) eqn:Pe, (P y) eqn:Py; try reflexivity.
  apply HP in Pe. apply HP in Py. lia.
Qed.

Lemma sort_by_start_filter (P : NEvent -> bool) (t : Z) (l : list NEvent) :
  (forall x, P x = true -> fe_start x = t) ->
  List.filter P (sort_by_start l) = List.filter P l.
Proof.
  intros HP. induction l as [| x xs IH]; simpl; [reflexivity |].
  rewrite (insert_by_start_filter P t x _ HP). simpl. rewrite IH. reflexivity.
Qed.

Lemma group_add_keys (key : Z) (e : NEvent) (G : list (Z * FGroup)) (k : Z) :
  In k (map fst (group_add key e G)) <-> k = key \/ In k (map fst G).
Proof.
  induction G as [| [k0 g0] rest IH]; simpl; [split; intros; intuition congruence |].
  destruct (Z.eqb_spec k0 key) as [-> | Hne]; simpl; [split; intros; intuition congruence |].
  rewrite IH. tauto.
Qed.

Lemma group_add_nodup (key : Z) (e : NEvent) (G : list (Z * FGroup)) :
  List.NoDup (map fst G) -> List.NoDup (map fst (group_add key e G)).
Proof.
  induction G as [| [k0 g0] rest IH]; simpl; intros Hnd.
  - constructor; [intros [] | constructor].
  - inversion Hnd as [| ? ? Hnin Hnd']. subst.
    destruct (Z.eqb_spec k0 key) as [-> | Hne]; simpl; [exact Hnd |].
    constructor; [| apply IH, Hnd'].
    rewrite group_add_keys. intros [H | H]; [congruence | contradiction].
Qed.

Lemma group_add_in (key : Z) (e : NEvent) (G : list (Z * FGroup)) (k : Z) (g : FGroup) :
  List.NoDup (map fst G) -> In (k, g) (group_add key e G) ->
  (k <> key /\ In (k, g) G) \/
  (k = key /\ ((exists g0, In (key, g0) G /\ g_events g = g_events g0 ++ [e]) \/
               (~ In key (map fst G) /\ g_events g = [e]))).
Proof.
  induction G as [| [k0 g0] rest IH]; simpl; intros Hnd Hin.
  - destruct Hin as [H | []]. injection H as <- <-. right. split; [reflexivity |].
    right. split; [intros [] | reflexivity].
  - inversion Hnd as [| ? ? Hnin Hnd']. subst.
    destruct (Z.eqb_spec k0 key) as [-> | Hne]; simpl in Hin.
    + destruct Hin as [H | H].
      * injection H as <- <-. right. split; [reflexivity |].
        left. exists g0. split; [left; reflexivity | reflexivity].
      * left. split; [| right; exact H].
        intros ->. apply Hnin. apply in_map_iff. exists (key, g). split; [reflexivity | exact H].
    + destruct Hin as [H | H].
      * injection H as <- <-. left. split; [exact Hne | left; reflexivity].
      * destruct (IH Hnd' H) as [[Hk Hi] | [Hk [[g1 [Hi Hg]] | [Hni Hg]]]].
        -- left. split; [exact Hk | right; exact Hi].
        -- right. split; [exact Hk |]. left. exists g1. split; [right; exact Hi | exact Hg].
        -- right. split; [exact Hk |]. right. split; [| exact Hg].
           intros [H' | H']; [congruence | contradiction].
Qed.

(** What the [forEach] has built after the events [l0]. *)
Definition groups_inv (l0 : list NEvent) (G : list (Z * FGroup)) : Prop :=
  List.NoDup (map fst G) /\
  (forall k g, In (k, g) G -> g_events g = List.filter (fun x => dateKey x =? k) l0) /\
  (forall k, In k (map fst G) <-> exists x, In x l0 /\ dateKey x = k).

Lemma filter_none {A} (P : A -> bool) (l : list A) :
  (forall x, In x l -> P x = false) -> List.filter P l = [].
Proof.
  induction l as [| x xs IH]; simpl; intros H; [reflexivity |].
  rewrite (H x (or_introl eq_refl)). apply IH. intros y Hy. apply H. right. exact Hy.
Qed.

Lemma groups_inv_step (l0 : list NEvent) (G : list (Z * FGroup)) (e : NEvent) :
  groups_inv l0 G -> groups_inv (l0 ++ [e]) (group_add (dateKey e) e G).
Proof.
  intros [Hnd [Hev Hkeys]]. split; [apply group_add_nodup, Hnd |]. split.
  - intros k g Hin. rewrite List.filter_app. simpl.
    destruct (group_add_in _ _ _ _ _ Hnd Hin) as [[Hk Hi] | [-> [[g0 [Hi Hg]] | [Hni Hg]]]].
    + rewrite (Hev k g Hi). destruct (Z.eqb_spec (dateKey e) k); [congruence |].
      rewrite app_nil_r. reflexivity.
    + rewrite Hg, (Hev _ g0 Hi), Z.eqb_refl. reflexivity.
    + rewrite Hg, Z.eqb_refl, filter_none; [reflexivity |].
      intros x Hx. destruct (Z.eqb_spec (dateKey x) (dateKey e)) as [Hd | _]; [| reflexivity].
      exfalso. apply Hni, Hkeys. exists x. split; assumption.
  - intros k. rewrite group_add_keys, Hkeys. split.
    + intros [-> | [x [Hx Hd]]].
      * exists e. split; [apply in_or_app; right; left; reflexivity | reflexivity].
      * exists x. split; [apply in_or_app; left; exact Hx | exact Hd].
    + intros [x [Hx Hd]]. apply in_app_or in Hx as [Hx | [<- | []]].
      * right. exists x. split; assumption.
      * left. symmetry. exact Hd.
Qed.

Lemma groups_inv_fold (l : list NEvent) :
  forall l0 G, groups_inv l0 G ->
  groups_inv (l0 ++ l) (fold_left (fun groups e => group_add (dateKey e) e groups) l G).
Proof.
  induction l as [| x xs IH]; intros l0 G H; simpl.
  - rewrite app_nil_r. exact H.
  - replace (l0 ++ x :: xs) with ((l0 ++ [x]) ++ xs) by (rewrite <- app_assoc; reflexivity). apply IH. apply groups_inv_step, H.
Qed.

Lemma groupedEvents_spec (events : list NEvent) :
  List.NoDup (map fst (groupedEvents events)) /\
  (forall k, In k (map fst (groupedEvents events)) <-> exists e, In e events /\ dateKey e = k) /\
  (forall k g, In (k, g) (groupedEvents events) ->
     g_events g = sort_by_start (List.filter (fun e => dateKey e =? k) events)).
Proof.
  assert (H0 : groups_inv [] []).
  { split; [constructor |]. split; [intros k g [] |].
    intros k. simpl. split; [intros [] | intros [x [[] _]]]. }
  destruct (groups_inv_fold events [] [] H0) as [Hnd [Hev Hkeys]]. simpl in Hnd, Hev, Hkeys.
  unfold groupedEvents. rewrite map_map. cbn [fst]. split; [exact Hnd |]. split; [exact Hkeys |].
  intros k g Hin. apply in_map_iff in Hin as [[k0 g0] [Heq Hin]].
  cbn [fst snd] in Heq. injection Heq as <- <-. cbn [g_events].
  rewrite (Hev k0 g0 Hin). reflexivity.
Qed.

(** X21.  [groupedEvents] has one group per UTC day that some event
    starts on (an event without a valid start counts as starting at the
    epoch), and the group of a day holds exactly the events of that day,
    each once. *)
Theorem groupedEvents_by_day (events : list NEvent) :
  List.NoDup (map fst (groupedEvents events)) /\
  (forall k, In k (map fst (groupedEvents events)) <-> exists e, In e events /\ dateKey e = k) /\
  (forall k g, In (k, g) (groupedEvents events) ->
     Permutation (g_events g) (List.filter (fun e => dateKey e =? k) events)).
Proof.
  destruct (groupedEvents_spec events) as [Hnd [Hkeys Hev]].
  split; [exact Hnd |]. split; [exact Hkeys |].
  intros k g Hin. rewrite (Hev k g Hin). apply sort_by_start_perm.
Qed.

Lemma groupedEvents_by_day_witness :
  List.NoDup (map fst (groupedEvents [mkNEvent "a" (Some 90000000) None;
                                 mkNEvent "b" None None;
                                 mkNEvent "c" (Some 86400000) None])) /\
  (forall k, In k (map fst (groupedEvents [mkNEvent "a" (Some 90000000) None;
                                           mkNEvent "b" None None;
                                           mkNEvent "c" (Some 86400000) None])) <->
     exists e, In e [mkNEvent "a" (Some 90000000) None; mkNEvent "b" None None;
                     mkNEvent "c" (Some 86400000) None] /\ dateKey e = k) /\
  (forall k g, In (k, g) (groupedEvents [mkNEvent "a" (Some 90000000) None;
                                         mkNEvent "b" None None;
                                         mkNEvent "c" (Some 86400000) None]) ->
     Permutation (g_events g)
       (List.filter (fun e => dateKey e =? k)
          [mkNEvent "a" (Some 90000000) None; mkNEvent "b" None None;
           mkNEvent "c" (Some 86400000) None])).
Proof. exact (groupedEvents_by_day _). Defined.

(** X22.  Within each group of [groupedEvents], the events are in
    nondecreasing order of start, and events with the same start keep
    their input order. *)
Theorem groupedEvents_sorted_stable (events : list NEvent) (k : Z) (g : FGroup) :
  In (k, g) (groupedEvents events) ->
  Sorted start_le (g_events g) /\
  forall t, List.filter (fun e => fe_start e =? t) (g_events g)
            = List.filter (fun e => (dateKey e =? k) && (fe_start e =? t)) events.
Proof.
  intros Hin. destruct (groupedEvents_spec events) as [_ [_ Hev]].
  rewrite (Hev k g Hin). split; [apply sort_by_start_sorted |].
  intros t. rewrite (sort_by_start_filter _ t); [| intros x Hx; apply Z.eqb_eq, Hx].
  clear Hin Hev. induction events as [| x xs IH]; simpl; [reflexivity |].
  destruct (dateKey x =? k); simpl; rewrite IH; reflexivity.
Qed.

Lemma groupedEvents_sorted_stable_witness :
  Sorted start_le [mkNEvent "c" (Some 86400000) None; mkNEvent "a" (Some 90000000) None] /\
  forall t, List.filter (fun e => fe_start e =? t)
              [mkNEvent "c" (Some 86400000) None; mkNEvent "a" (Some 90000000) None]
            = List.filter (fun e => (dateKey e =? 1) && (fe_start e =? t))
                [mkNEvent "a" (Some 90000000) None; mkNEvent "b" None None;
                 mkNEvent "c" (Some 86400000) None].
Proof.
  apply (groupedEvents_sorted_stable
           [mkNEvent "a" (Some 90000000) None; mkNEvent "b" None None;
            mkNEvent "c" (Some 86400000) None] 1
           (mkFGroup [mkNEvent "c" (Some 86400000) None; mkNEvent "a" (Some 90000000) None]
                     90000000)).
  vm_compute. left. reflexivity.
Defined.

(** ** Titles through the pipeline *)

Lemma str_or_nonempty (a : option string) (b : string) :
  b <> EmptyString -> str_or a b <> EmptyString.
Proof.
  intros Hb. unfold str_or. destruct a as [s|]; [| exact Hb].
  destruct (String.eqb_spec s EmptyString); [exact Hb | exact n].
Qed.

(** X23.  Every event block of a calendar built from normalized events
    has a nonempty summary: [event.title || event.name || 'Event'] never
    yields the empty string, and the distribution keeps titles. *)
Theorem calendar_summaries_nonempty (rnd : nat -> Q) (events : list Event) (today : Z)
    (clock : nat -> Z) (n : nat) :
  Forall (fun ve => ve_summary ve <> EmptyString)
         (cal_events (fst (generateICalendar (normalizeEvents events) today clock rnd n))).
Proof.
  apply Forall_lookup_2. intros i ve Hi.
  destruct (calendar_lookup_content _ _ _ _ _ _ _ Hi) as [[e [He Hs]] _].
  rewrite Hs. unfold normalizeEvents in He. rewrite lookup_map_list in He.
  destruct (events !! i) as [raw|]; [| discriminate He].
  injection He as <-. cbn [normalizeEvent title].
  apply str_or_nonempty, str_or_nonempty. discriminate.
Qed.
